(** * cfctl: the rate-limited request layer

    A shallow embedding of [cfctl.py]: the [Counter] that paces API calls
    and the [Account] methods [get], [post], [put] and [ans_check] built on
    it, followed by the properties of that code.

    Conventions of the embedding.
    - A [datetime] is the number of microseconds since a fixed origin and a
      [timedelta] a number of microseconds, both in [Z]; this is the
      resolution Python keeps for the two types, so [-] and [>] on them are
      exact integer operations.
    - A Python exception is a value of [exn]; a call either returns or
      raises ([outcome]).  State that the code mutates is passed
      explicitly and survives a raised exception.
    - Reading the clock is an input of [Counter.inc] and the duration it
      hands to [sleep] is an output. *)

From stdpp Require Import numbers strings list sorting functions gmap fin_maps.

Set Warnings "-register-all".

Local Open Scope Z_scope.

(** ** Exceptions and results *)

Inductive exn : Type :=
| APIError (code : Z) (mesg : string)
| AttributeError
| TypeError
| KeyError
| IndexError
| ValueError
| ZeroDivisionError
| RecursionError
| OverflowError
| JSONDecodeError
| ConnectionError.

Inductive outcome (A : Type) : Type :=
| Return (a : A)
| Raise (e : exn).

Arguments Return {A} a.
Arguments Raise {A} e.

(** ** The call counter *)

Module Counter.

(** [self.period] (seconds), [self.maxhits], [self.hist] (oldest first). *)
Record t : Type := mk { period : Z; maxhits : Z; hist : list Z }.

(** What [Counter.__init__] reads from the object it is given. *)
Class Rated (A : Type) : Type :=
  { account_period : A -> Z; account_maxhits : A -> Z }.

Definition init {A : Type} `{Rated A} (account : A) : t :=
  {| period := account_period account;
     maxhits := account_maxhits account;
     hist := [] |}.

(** [timedelta(seconds = s)] *)
Definition timedelta (seconds : Z) : Z := seconds * 1000000.

(** The loop
    [while self.hist[-1] - self.hist[0] > d: self.hist.remove(self.hist[0])].
    [remove] deletes the first element equal to [hist[0]], which is the
    one at index 0.  Evaluating the condition on an emptied list raises
    [IndexError]. *)
Fixpoint prune (d : Z) (h : list Z) : outcome (list Z) :=
  match h, last h with
  | x :: rest, Some y => if d <? y - x then prune d rest else Return h
  | _, _ => Raise IndexError
  end.

(** [time.sleep(secs)] refuses a negative length. *)
Definition sleep (delay : Z) : outcome (option Z) :=
  if delay <? 0 then Raise ValueError else Return (Some delay).

(** [inc], with the value [now] that [datetime.now()] returns as an
    argument.  The result is the counter afterwards, and either the
    exception raised or what was slept: [None] when [sleep] is not
    called, [Some delay] when [sleep(delay)] is. *)
Definition inc (self : t) (now : Z) : t * outcome (option Z) :=
  let d := timedelta (period self) in
  let appended := hist self ++ [now] in
  match prune d appended with
  | Raise e => (mk (period self) (maxhits self) [], Raise e)
  | Return h =>
      let self' := mk (period self) (maxhits self) h in
      if maxhits self <=? Z.of_nat (length h) then
        match h, last h with
        | x :: _, Some y => (self', sleep (d - (y - x)))
        | _, _ => (self', Raise IndexError)
        end
      else (self', Return None)
  end.

(** Time a call to [inc] takes: what it slept. *)
Definition slept (s : option Z) : Z := default 0 s.

(** A single caller invoking [inc] repeatedly.  Before call [i] the
    clock advances by [gaps !! i] (time spent outside [inc]); inside
    [inc] it advances by what is slept.  The result is the counter and
    the clock after the last call, and the instant each call returned
    at, in call order. *)
Fixpoint calls (self : t) (clock : Z) (gaps : list Z)
  : outcome (t * Z * list Z) :=
  match gaps with
  | [] => Return (self, clock, [])
  | g :: gaps' =>
      let now := clock + g in
      match inc self now with
      | (self', Return s) =>
          let woke := now + slept s in
          match calls self' woke gaps' with
          | Return (c, k, admitted) => Return (c, k, woke :: admitted)
          | Raise e => Raise e
          end
      | (_, Raise e) => Raise e
      end
  end.

End Counter.

(** ** Python values

    What [json] decodes to and what a query mapping holds.  Numbers are
    integers; strings are sequences of one-byte characters. *)

Inductive value : Type :=
| VNone
| VBool (b : bool)
| VInt (n : Z)
| VStr (s : string)
| VList (items : list value)
| VDict (entries : list (string * value)).

Definition chars (s : string) : list value :=
  map (fun a => VStr (String a EmptyString)) (String.list_ascii_of_string s).

Definition keys (entries : list (string * value)) : list value :=
  map (fun kv => VStr (fst kv)) entries.

(** [bool] is a subclass of [int]. *)
Definition as_int (v : value) : option Z :=
  match v with
  | VInt n => Some n
  | VBool b => Some (if b then 1 else 0)
  | _ => None
  end.

(** [for i in v]: the items iteration yields. *)
Definition iterate (v : value) : outcome (list value) :=
  match v with
  | VList items => Return items
  | VDict entries => Return (keys entries)
  | VStr s => Return (chars s)
  | _ => Raise TypeError
  end.

(** [a += b] *)
Definition iadd (a b : value) : outcome value :=
  match a with
  | VList items =>
      match iterate b with
      | Return more => Return (VList (items ++ more))
      | Raise e => Raise e
      end
  | VStr s =>
      match b with
      | VStr s' => Return (VStr (String.append s s'))
      | _ => Raise TypeError
      end
  | VInt _ | VBool _ =>
      match as_int a, as_int b with
      | Some m, Some n => Return (VInt (m + n))
      | _, _ => Raise TypeError
      end
  | VNone | VDict _ => Raise TypeError
  end.

(** [v[k]] for a string [k] *)
Definition getitem (v : value) (k : string) : outcome value :=
  match v with
  | VDict entries =>
      match list_find (fun kv => fst kv = k) entries with
      | Some (_, (_, x)) => Return x
      | None => Raise KeyError
      end
  | _ => Raise TypeError
  end.

(** The truth value of [v], as [if v], [and] and [not] take it. *)
Definition truthy (v : value) : bool :=
  match v with
  | VNone => false
  | VBool b => b
  | VInt n => negb (n =? 0)
  | VStr s => negb (String.eqb s "")
  | VList items => match items with [] => false | _ => true end
  | VDict entries => match entries with [] => false | _ => true end
  end.

(** ** The HTTP exchange *)

Inductive verb : Type := GET | POST | PUT.

(** What [requests.get], [requests.post] and [requests.put] are called
    with; [params] is the content of the mapping at the time of the call
    and [data] the value [json.dumps] encodes. *)
Record request : Type :=
  { method : verb;
    url : string;
    params : gmap string value;
    headers : list (string * string);
    data : option value }.

(** The body of a response that is the JSON object of the provider:
    [success], [result], [errors] (entries with an integer [code] and a
    string [message]) and [result_info] (integers [page] and
    [total_pages]).  A key may be absent ([None]).  A body that decodes
    to JSON of another shape is not covered by this type. *)
Record error_entry : Type := { code : Z; message : string }.
Record page_info : Type := { page : Z; total_pages : Z }.
Record envelope : Type :=
  { success : option bool;
    result : option value;
    errors : option (list error_entry);
    result_info : option page_info }.

(** A response whose body [ans.json()] decodes, or fails to decode. *)
Inductive response : Type :=
| body_json (r : envelope)
| body_other.

(** The remote end: the response to each request ([None]: the request
    fails at the network level) and the time the exchange takes. *)
Record network : Type :=
  { serve : request -> option response;
    elapsed : request -> Z }.

(** The mappings that are created once and then shared: the default value
    of parameter [p] of [get], [post], [put] and [list_zones], and the
    mappings callers create themselves. *)
Inductive dictref : Type :=
| get_p
| post_p
| put_p
| list_zones_p
| local (n : nat).

Global Instance dictref_eq_dec : EqDecision dictref.
Proof. solve_decision. Defined.

(** Everything outside the account object. *)
Record env : Type :=
  { clock : Z;
    sent : list request;
    stdout : list exn;
    dicts : dictref -> gmap string value }.

(** ** State and exceptions *)

Definition M (S A : Type) : Type := S -> outcome A * S.

Definition ret {S A : Type} (a : A) : M S A := fun s => (Return a, s).

Definition raise {S A : Type} (e : exn) : M S A := fun s => (Raise e, s).

Definition bind {S A B : Type} (m : M S A) (k : A -> M S B) : M S B :=
  fun s =>
    match m s with
    | (Return a, s') => k a s'
    | (Raise e, s') => (Raise e, s')
    end.

Definition lift {S A : Type} (o : outcome A) : M S A := fun s => (o, s).

Declare Scope py_scope.
Delimit Scope py_scope with py.
Notation "x <- c1 ;; c2" := (bind c1 (fun x => c2))
  (at level 100, c1 at next level, right associativity) : py_scope.
Notation "c1 ;; c2" := (bind c1 (fun _ => c2))
  (at level 100, right associativity) : py_scope.

Local Open Scope py_scope.

(** ** The account *)

Definition useragent : string := "OnlyFoolAndHorses".
Definition version : string := "dev".

Module Zone.

(** [self.data] and [self.prefix]; [self.account] is the account that
    builds the zone. *)
Record t : Type := { zdata : value; prefix : string }.

(** [Zone.__init__] with [store] left at its default, [False]. *)
Definition init (z : value) : outcome t :=
  match getitem z "id" with
  | Return (VStr id) =>
      Return {| zdata := z; prefix := String.append "/zones/" id |}
  | Return _ => Raise TypeError
  | Raise e => Raise e
  end.

End Zone.

Module Account.

(** The attributes [__init__] binds.  [counter] and [zones] are bound on
    one branch only: [None] is the attribute not being there. *)
Record t : Type :=
  { acc_headers : list (string * string);
    endpoint : string;
    maxhits : Z;
    period : Z;
    counter : option Counter.t;
    zones : option (list Zone.t) }.

Global Instance rated : Counter.Rated t :=
  {| Counter.account_period := period; Counter.account_maxhits := maxhits |}.

(** The account and what is outside it. *)
Record world : Type := { this : t; outside : env }.

Definition set_counter (c : Counter.t) (w : world) : world :=
  let a := this w in
  {| this := {| acc_headers := acc_headers a; endpoint := endpoint a;
                maxhits := maxhits a; period := period a;
                counter := Some c; zones := zones a |};
     outside := outside w |}.

Definition set_zones (zs : list Zone.t) (w : world) : world :=
  let a := this w in
  {| this := {| acc_headers := acc_headers a; endpoint := endpoint a;
                maxhits := maxhits a; period := period a;
                counter := counter a; zones := Some zs |};
     outside := outside w |}.

Definition advance (dt : Z) (w : world) : world :=
  let o := outside w in
  {| this := this w;
     outside := {| clock := clock o + dt; sent := sent o;
                   stdout := stdout o; dicts := dicts o |} |}.

Definition record_request (rq : request) (w : world) : world :=
  let o := outside w in
  {| this := this w;
     outside := {| clock := clock o; sent := sent o ++ [rq];
                   stdout := stdout o; dicts := dicts o |} |}.

Definition print (err : exn) (w : world) : world :=
  let o := outside w in
  {| this := this w;
     outside := {| clock := clock o; sent := sent o;
                   stdout := stdout o ++ [err]; dicts := dicts o |} |}.

Definition store (p : dictref) (d : gmap string value) (w : world) : world :=
  let o := outside w in
  {| this := this w;
     outside := {| clock := clock o; sent := sent o; stdout := stdout o;
                   dicts := <[p := d]> (dicts o) |} |}.

(** [if self.counter: self.counter.inc()].  Reading an attribute that
    is not bound raises [AttributeError]; a [Counter] instance is true. *)
Definition counter_inc : M world unit :=
  fun w =>
    match counter (this w) with
    | None => (Raise AttributeError, w)
    | Some c =>
        match Counter.inc c (clock (outside w)) with
        | (c', Return s) =>
            (Return tt, advance (Counter.slept s) (set_counter c' w))
        | (c', Raise e) => (Raise e, set_counter c' w)
        end
    end.

(** [requests.get], [requests.post], [requests.put] *)
Definition send (net : network) (rq : request) : M world response :=
  fun w =>
    let w' := advance (elapsed net rq) (record_request rq w) in
    match serve net rq with
    | Some ans => (Return ans, w')
    | None => (Raise ConnectionError, w')
    end.

(** The mapping [ans_check] returns: [content], and [info] when the
    response has a [result_info]. *)
Record checked : Type := { content : value; info : option page_info }.

(** [res.keys()], in insertion order. *)
Definition checked_keys (res : checked) : list value :=
  VStr "content" :: match info res with
                    | Some _ => [VStr "info"]
                    | None => []
                    end.

(** The statements under [try] in [ans_check]. *)
Definition ans_check_try (ans : response) : outcome checked :=
  match ans with
  | body_other => Raise JSONDecodeError
  | body_json r =>
      match success r with
      | None => Raise KeyError
      | Some false =>
          match errors r with
          | None => Raise KeyError
          | Some [] => Raise IndexError
          | Some (e :: _) => Raise (APIError (code e) (message e))
          end
      | Some true =>
          match result r with
          | None => Raise KeyError
          | Some c => Return {| content := c; info := result_info r |}
          end
      end
  end.

(** [ans_check]: [except APIError as err: print(err)], after which the
    function ends without a [return] and so returns [None].  What is
    printed is recorded as the exception itself; the text is
    [str(err)]. *)
Definition ans_check (ans : response) : M world (option checked) :=
  fun w =>
    match ans_check_try ans with
    | Return res => (Return (Some res), w)
    | Raise (APIError c m) => (Return None, print (APIError c m) w)
    | Raise e => (Raise e, w)
    end.

(** [if "page" in p.keys(): p["page"] += 1 else: p["page"] = 2] *)
Definition next_page (d : gmap string value)
  : outcome (gmap string value) :=
  match d !! "page" with
  | Some v =>
      match iadd v (VInt 1) with
      | Return v' => Return (<["page" := v']> d)
      | Raise e => Raise e
      end
  | None => Return (<["page" := VInt 2]> d)
  end.

(** The request a method builds: [self.endpoint + suffix],
    [params = p], [headers = self.headers] and, for [post] and [put],
    [data = json.dumps(d)]. *)
Definition request_for (a : t) (v : verb) (suffix : string)
  (d : gmap string value) (body : option value) : request :=
  {| method := v;
     url := String.append (endpoint a) suffix;
     params := d;
     headers := acc_headers a;
     data := body |}.

Definition call (net : network) (v : verb) (suffix : string)
  (body : option value) (p : dictref) : M world response :=
  fun w =>
    send net (request_for (this w) v suffix (dicts (outside w) p) body) w.

(** The update of the mapping object [p] by [next_page]. *)
Definition turn_page (p : dictref) : M world unit :=
  fun w =>
    match next_page (dicts (outside w) p) with
    | Return d => (Return tt, store p d w)
    | Raise e => (Raise e, w)
    end.

(** [get(suffix, p)], where [p] names the mapping object passed and
    [depth] is the number of nested calls the interpreter still allows. *)
Fixpoint get (net : network) (depth : nat) (suffix : string) (p : dictref)
  : M world value :=
  match depth with
  | O => raise RecursionError
  | S depth' =>
      counter_inc ;;
      ans <- call net GET suffix None p ;;
      res <- ans_check ans ;;
      match res with
      | None => raise TypeError
      | Some res =>
          match info res with
          | Some i =>
              if page i <? total_pages i then
                turn_page p ;;
                more <- get net depth' suffix p ;;
                lift (iadd (content res) more)
              else ret (content res)
          | None => ret (content res)
          end
      end
  end.

(** [res, info = self.ans_check(ans)]: the right-hand side is iterated
    over and must yield exactly two items. *)
Definition unpack2 (res : option checked) : outcome (value * value) :=
  match res with
  | None => Raise TypeError
  | Some res =>
      match checked_keys res with
      | [a; b] => Return (a, b)
      | _ => Raise ValueError
      end
  end.

Definition send_body (net : network) (v : verb) (suffix : string)
  (d : value) (p : dictref) : M world value :=
  counter_inc ;;
  ans <- call net v suffix (Some d) p ;;
  res <- ans_check ans ;;
  ri <- lift (unpack2 res) ;;
  ret (fst ri).

Definition post (net : network) (suffix : string) (d : value) (p : dictref)
  : M world value :=
  send_body net POST suffix d p.

Definition put (net : network) (suffix : string) (d : value) (p : dictref)
  : M world value :=
  send_body net PUT suffix d p.

Definition list_zones (net : network) (depth : nat) (p : dictref)
  : M world value :=
  get net depth "/zones" p.

(** [int(1200.0/nb_wkr)] for an integer [nb_wkr]: the division is done
    on floats, which an integer of magnitude [2^1024 - 2^970] or more does
    not convert to, and [int] truncates towards zero. *)
Definition quota (nb_wkr : Z) : outcome Z :=
  if nb_wkr =? 0 then Raise ZeroDivisionError
  else if 2 ^ 1024 - 2 ^ 970 <=? Z.abs nb_wkr then Raise OverflowError
  else Return (Z.quot 1200 nb_wkr).

(** The body of [for i in self.list_zones()]. *)
Fixpoint make_zones (items : list value) : outcome (list Zone.t) :=
  match items with
  | [] => Return []
  | i :: items' =>
      match getitem i "id" with
      | Raise e => Raise e
      | Return id =>
          match getitem i "name" with
          | Raise e => Raise e
          | Return name =>
              match Zone.init (VDict [("id", id); ("name", name)]) with
              | Raise e => Raise e
              | Return z =>
                  match make_zones items' with
                  | Raise e => Raise e
                  | Return zs => Return (z :: zs)
                  end
              end
          end
      end
  end.

(** [Account(email, key, count, store, nb_wkr)].  The object exists for
    the caller only when [__init__] returns. *)
Definition init (net : network) (depth : nat) (email key : string)
  (count store : bool) (nb_wkr : Z) : M env t :=
  fun o =>
    match quota nb_wkr with
    | Raise e => (Raise e, o)
    | Return hits =>
        let a :=
          {| acc_headers :=
               [("X-Auth-Email", email); ("X-Auth-Key", key);
                ("Content-Type", "application/json");
                ("User-Agent",
                 String.append useragent (String.append "-" version))];
             endpoint := "https://api.cloudflare.com/client/v4";
             maxhits := hits;
             period := 300;
             counter := None;
             zones := None |} in
        let w := {| this := a; outside := o |} in
        let w := if count then set_counter (Counter.init a) w else w in
        if store then
          match list_zones net depth list_zones_p (set_zones [] w) with
          | (Raise e, w') => (Raise e, outside w')
          | (Return j, w') =>
              match iterate j with
              | Raise e => (Raise e, outside w')
              | Return items =>
                  match make_zones items with
                  | Raise e => (Raise e, outside w')
                  | Return zs => (Return (this (set_zones zs w')), outside w')
                  end
              end
          end
        else (Return (this w), outside w)
    end.

(** [search_zone(s)] for a string [s], for which [str(s)] is [s].  The
    mapping [{"name": str(s)}] is a new object at every call; [fresh]
    is the name it gets. *)
Definition search_zone (net : network) (depth : nat) (s : string)
  (fresh : nat) : M world value :=
  (fun w => (Return tt, store (local fresh) {["name" := VStr s]} w)) ;;
  list_zones net depth (local fresh).

End Account.

(** ** Zones and records *)

Module ZoneMethods.

(** [Zone.details]: [self.account.get(self.prefix)], with the default
    mapping of [get]. *)
Definition details (net : network) (depth : nat) (self : Zone.t)
  : M Account.world value :=
  Account.get net depth (Zone.prefix self) get_p.

(** [Zone.list_records] *)
Definition list_records (net : network) (depth : nat) (self : Zone.t)
  : M Account.world value :=
  Account.get net depth (String.append (Zone.prefix self) "/dns_records")
    get_p.

(** [Zone.create_record(t, n, c, ttl, proxied)]: the result of [post]
    is bound to a local variable and the method ends, returning
    [None]; [proxied] is not used. *)
Definition create_record (net : network) (self : Zone.t)
  (t n c ttl : value) (proxied : bool) : M Account.world value :=
  Account.post net (String.append (Zone.prefix self) "/dns_records")
    (VDict [("type", t); ("name", n); ("content", c); ("ttl", ttl)])
    post_p ;;
  ret VNone.

End ZoneMethods.

Module DNSRecord.

(** The class [Record]: [self.data] and [self.prefix]; [self.zone] is
    the zone the record is built for. *)
Record t : Type := { rdata : value; rprefix : string }.

(** [Record.__init__(r, zo)] *)
Definition init (r : value) (zo : Zone.t) : outcome t :=
  match getitem r "id" with
  | Return (VStr id) =>
      Return {| rdata := r;
                rprefix :=
                  String.append
                    (String.append (Zone.prefix zo) "/dns_records/") id |}
  | Return _ => Raise TypeError
  | Raise e => Raise e
  end.

(** [Record.details]: the record with [self.data] replaced by what
    [get] returns, which is also the value returned. *)
Definition details (net : network) (depth : nat) (self : t)
  : M Account.world t :=
  v <- Account.get net depth (rprefix self) get_p ;;
  ret {| rdata := v; rprefix := rprefix self |}.

(** [self.data["proxiable"] and <second>]: the second operand is
    evaluated only when the first is true. *)
Definition proxiable_and (self : t) (second : value -> bool)
  : outcome bool :=
  match getitem (rdata self) "proxiable" with
  | Raise e => Raise e
  | Return a =>
      if truthy a then
        match getitem (rdata self) "proxied" with
        | Raise e => Raise e
        | Return b => Return (second b)
        end
      else Return false
  end.

(** [Record.orange]:
    [if self.data["proxiable"] and not self.data["proxied"]:
       self.zone.account.put(self.prefix, {"proxied": True})] *)
Definition orange (net : network) (self : t) : M Account.world value :=
  go <- lift (proxiable_and self (fun b => negb (truthy b))) ;;
  if go then
    Account.put net (rprefix self) (VDict [("proxied", VBool true)]) put_p ;;
    ret VNone
  else ret VNone.

(** [Record.grey]:
    [if self.data["proxiable"] and self.data["proxied"]:
       self.zone.account.put(self.prefix, {"proxied": False})] *)
Definition grey (net : network) (self : t) : M Account.world value :=
  go <- lift (proxiable_and self truthy) ;;
  if go then
    Account.put net (rprefix self) (VDict [("proxied", VBool false)]) put_p ;;
    ret VNone
  else ret VNone.

End DNSRecord.

(** * Notions used in the statements *)

(** The history is in the order of time and nothing in it is later than
    [now]. *)
Definition chronological (h : list Z) (now : Z) : Prop :=
  StronglySorted Z.le h /\ Forall (fun x => x <= now) h.

(** Every entry is within [d] of the newest one. *)
Definition within_window (d : Z) (h : list Z) : Prop :=
  forall y, last h = Some y -> Forall (fun x => 0 <= y - x <= d) h.

(** A counter that holds no more than its quota and, when it is full,
    has waited until its oldest entry was a whole window ago. *)
Definition paced (self : Counter.t) (clock : Z) : Prop :=
  chronological (Counter.hist self) clock
  /\ Z.of_nat (length (Counter.hist self)) <= Counter.maxhits self
  /\ (Counter.maxhits self <= Z.of_nat (length (Counter.hist self)) ->
      exists x, head (Counter.hist self) = Some x
                /\ x + Counter.timedelta (Counter.period self) <= clock).

(** Instants [l], in order, of which any two that are [m] places apart
    are more than [d] apart: no interval of length [d] holds more than
    [m] of them. *)
Definition spaced (d : Z) (m : nat) (l : list Z) : Prop :=
  forall i a b, l !! i = Some a -> l !! (i + m)%nat = Some b -> a + d < b.

(** How the history, newest entry first ([hrev]), stands to the instants
    at which the calls made so far returned, latest first ([past]): a
    call read the clock after the call before it returned; the calls
    whose timestamps are gone returned more than [d] before the newest
    timestamp; and [past] is spaced. *)
Definition tracked (d : Z) (m : nat) (hrev past : list Z) (clock : Z)
  : Prop :=
  Forall (fun a => a <= clock) past
  /\ (hrev = [] -> past = [])
  /\ (forall t x a, hrev !! t = Some x -> past !! S t = Some a -> a < x)
  /\ (forall s a x0,
        (length hrev < s)%nat -> past !! s = Some a ->
        head hrev = Some x0 -> a + d < x0)
  /\ (forall s a b,
        past !! s = Some b -> past !! (s + m)%nat = Some a -> a + d < b).

(** A provider that serves a listing in pages: a request for page [k]
    (the first one when the query has no [page]) is answered with the
    [k]-th list of [pages] and a [result_info] that gives [k] and the
    number of pages; any other request is refused. *)
Definition page_index (d : gmap string value) : option nat :=
  match d !! "page" with
  | None => Some 0%nat
  | Some (VInt k) => if 1 <=? k then Some (Z.to_nat (k - 1)) else None
  | Some _ => None
  end.

Definition page_body (pages : list (list value)) (i : nat) : envelope :=
  match pages !! i with
  | Some items =>
      {| success := Some true;
         result := Some (VList items);
         errors := None;
         result_info :=
           Some {| page := Z.of_nat (S i);
                   total_pages := Z.of_nat (length pages) |} |}
  | None =>
      {| success := Some false;
         result := None;
         errors := Some [{| code := 1000; message := "no such page" |}];
         result_info := None |}
  end.

Definition paged (pages : list (list value)) : network :=
  {| serve rq :=
       match page_index (params rq) with
       | Some i => Some (body_json (page_body pages i))
       | None => Some (body_json (page_body pages (length pages)))
       end;
     elapsed _ := 0 |}.

(** A provider that answers every request with the same response. *)
Definition always (ans : response) : network :=
  {| serve _ := Some ans; elapsed _ := 0 |}.

(** An account whose counter is bound, with a window that is not
    negative. *)
Definition ready (w : Account.world) : Prop :=
  exists c, Account.counter (Account.this w) = Some c
            /\ 0 <= Counter.period c.

(** Two states of the world with the same endpoint and headers. *)
Definition same_account (w w' : Account.world) : Prop :=
  Account.endpoint (Account.this w') = Account.endpoint (Account.this w)
  /\ Account.acc_headers (Account.this w')
     = Account.acc_headers (Account.this w).

(** Requests [rqs] that all carry verb [v], the URL of the account
    followed by [suffix], the headers of the account and [body]. *)
Definition sends_only (a : Account.t) (v : verb) (suffix : string)
  (body : option value) (rqs : list request) : Prop :=
  Forall (fun rq =>
            method rq = v
            /\ url rq = String.append (Account.endpoint a) suffix
            /\ headers rq = Account.acc_headers a
            /\ data rq = body) rqs.

(** Between [w] and [w'] the requests [rqs] were sent, in this order,
    the endpoint and the headers stayed, and no mapping other than [p]
    changed. *)
Definition touches_only (p : dictref) (w w' : Account.world)
  (rqs : list request) : Prop :=
  same_account w w'
  /\ sent (Account.outside w') = sent (Account.outside w) ++ rqs
  /\ forall q, q <> p ->
       dicts (Account.outside w') q = dicts (Account.outside w) q.

(** A provider every response of which announces a further page. *)
Definition endless (net : network) : Prop :=
  forall rq, exists r c i,
    serve net rq = Some (body_json r)
    /\ success r = Some true /\ result r = Some c
    /\ result_info r = Some i /\ page i < total_pages i.

(** The zone the constructor of the account keeps for an entry of the
    listing with the given [id] and [name]. *)
Definition zone_of (idn : string * value) : Zone.t :=
  {| Zone.zdata := VDict [("id", VStr idn.1); ("name", idn.2)];
     Zone.prefix := String.append "/zones/" idn.1 |}.

(** Nothing sent or printed yet, every shared mapping empty. *)
Definition env0 : env :=
  {| clock := 0; sent := []; stdout := []; dicts := fun _ => ∅ |}.

(** * Properties of the counter *)

Section CounterFacts.

Implicit Types (h gaps : list Z) (d x y now clock g : Z) (self : Counter.t).

(** What [prune] returns is a suffix of its argument, is not empty, and
    its newest entry is at most [d] after its oldest. *)
Lemma prune_spec d h h' :
  Counter.prune d h = Return h' ->
  exists x y, h' `suffix_of` h /\ head h' = Some x /\ last h' = Some y
              /\ y - x <= d.
Proof.
  revert h'. induction h as [|a h IH]; intros h' E; [discriminate|].
  cbn [Counter.prune] in E.
  destruct (last (a :: h)) as [y|] eqn:L; [|discriminate].
  destruct (Z.ltb_spec d (y - a)) as [Hlt|Hge].
  - destruct (IH _ E) as (x & y' & Hs & Hh & Hl & Hd).
    exists x, y'. split; [by apply suffix_cons_r|]. done.
  - injection E as <-. exists a, y. repeat split; [done..|lia].
Qed.

(** With a window that is not negative the loop ends on a list that still
    holds the timestamp just appended. *)
Lemma prune_total d h now :
  0 <= d -> exists h', Counter.prune d (h ++ [now]) = Return h'.
Proof.
  intros Hd. induction h as [|a h IH]; cbn [app Counter.prune].
  - cbn. replace (d <? now - now) with false; [eauto|].
    symmetry. apply Z.ltb_ge. lia.
  - rewrite last_cons, last_snoc.
    destruct (d <? now - a); [exact IH | eauto].
Qed.

Lemma chronological_snoc h now :
  chronological h now -> StronglySorted Z.le (h ++ [now]).
Proof.
  intros [Hs Hf]. apply StronglySorted_app_2; [|done|].
  - intros x1 x2 H1 ->%list_elem_of_singleton.
    by eapply Forall_forall in Hf.
  - repeat constructor.
Qed.

Lemma suffix_snoc_last h h' now :
  h' `suffix_of` (h ++ [now]) -> h' <> [] -> last h' = Some now.
Proof.
  intros [k Hk] Hne.
  assert (L : last (k ++ h') = Some now) by (rewrite <- Hk; apply last_snoc).
  rewrite last_app in L. destruct (last h') eqn:E; [done|].
  apply last_None in E. done.
Qed.

(** What one call does to a counter with a window that is not negative:
    it returns, and the history it leaves is the part of the old one,
    extended by [now], that [prune] keeps. *)
Lemma inc_returns self now :
  0 <= Counter.period self ->
  exists h x s,
    Counter.prune (Counter.timedelta (Counter.period self))
      (Counter.hist self ++ [now]) = Return h
    /\ head h = Some x /\ last h = Some now
    /\ now - x <= Counter.timedelta (Counter.period self)
    /\ Counter.inc self now
       = (Counter.mk (Counter.period self) (Counter.maxhits self) h, Return s)
    /\ s = (if Counter.maxhits self <=? Z.of_nat (length h)
            then Some (Counter.timedelta (Counter.period self) - (now - x))
            else None).
Proof.
  intros Hp. set (d := Counter.timedelta (Counter.period self)).
  assert (Hd : 0 <= d) by (unfold d, Counter.timedelta; lia).
  destruct (prune_total d (Counter.hist self) now Hd) as [h Eh].
  destruct (prune_spec _ _ _ Eh) as (x & y & Hsuf & Hh & Hl & Hyx).
  assert (Hne : h <> []) by (intros ->; discriminate).
  pose proof (suffix_snoc_last _ _ _ Hsuf Hne) as Hl'.
  assert (y = now) as -> by congruence.
  exists h, x. eexists. split; [exact Eh|].
  split; [exact Hh|]. split; [exact Hl'|]. split; [exact Hyx|].
  split; [|reflexivity].
  unfold Counter.inc. cbv zeta. fold d. rewrite Eh.
  destruct h as [|x' t]; [done|]. injection Hh as ->.
  rewrite Hl'. unfold Counter.sleep.
  destruct (Counter.maxhits self <=? _); [|done].
  replace (d - (now - x) <? 0) with false; [done|].
  symmetry. apply Z.ltb_ge. lia.
Qed.

(** Chronological order is kept by a call that reads a clock which has
    not gone back, and the call leaves every entry within the window of
    the newest. *)
Lemma inc_chronological self now :
  0 <= Counter.period self ->
  chronological (Counter.hist self) now ->
  let self' := fst (Counter.inc self now) in
  chronological (Counter.hist self') now
  /\ within_window (Counter.timedelta (Counter.period self))
       (Counter.hist self').
Proof.
  intros Hp Hc.
  destruct (inc_returns self now Hp) as (h & x & s & Eh & Hh & Hl & Hd & Ei & _).
  rewrite Ei. cbn.
  destruct (prune_spec _ _ _ Eh) as (_ & _ & [k Hk] & _).
  pose proof (chronological_snoc _ _ Hc) as Hs. rewrite Hk in Hs.
  apply StronglySorted_app_1_r in Hs.
  assert (Hf : Forall (fun z => x <= z <= now) h).
  { apply Forall_forall. intros z Hz.
    destruct h as [|x' t]; [done|]. injection Hh as ->.
    apply last_Some in Hl as [l' Hl'].
    split.
    - apply elem_of_cons in Hz as [->|Hz]; [lia|].
      apply StronglySorted_inv in Hs as [_ Hs].
      by eapply Forall_forall in Hs.
    - rewrite Hl' in Hz, Hs.
      apply elem_of_app in Hz as [Hz| ->%list_elem_of_singleton]; [|lia].
      eapply StronglySorted_app_1_elem_of; [exact Hs|exact Hz|].
      by apply list_elem_of_singleton. }
  split; [split; [done|]|].
  - eapply Forall_impl; [exact Hf|]. cbn. lia.
  - intros y Hy. assert (y = now) as -> by congruence.
    eapply Forall_impl; [exact Hf|]. cbn. lia.
Qed.

(** A run of calls in which time does not go back, on a counter with a
    window that is not negative, returns; it keeps the parameters and
    the order of the history, and ends with every entry within the
    window of the newest. *)
Lemma calls_chronological gaps : forall self clock,
  0 <= Counter.period self ->
  Forall (Z.le 0) gaps ->
  chronological (Counter.hist self) clock ->
  within_window (Counter.timedelta (Counter.period self)) (Counter.hist self) ->
  exists self' clock' admitted,
    Counter.calls self clock gaps = Return (self', clock', admitted)
    /\ Counter.period self' = Counter.period self
    /\ Counter.maxhits self' = Counter.maxhits self
    /\ chronological (Counter.hist self') clock'
    /\ within_window (Counter.timedelta (Counter.period self))
         (Counter.hist self')
    /\ (Counter.hist self <> [] -> Counter.hist self' <> []).
Proof.
  induction gaps as [|g gaps IH]; intros self clock Hp Hg Hc Hw.
  - exists self, clock, []. done.
  - apply Forall_cons in Hg as [Hg0 Hg].
    assert (Hc' : chronological (Counter.hist self) (clock + g)).
    { destruct Hc as [Hs Hf]. split; [done|].
      eapply Forall_impl; [exact Hf|]. cbn. lia. }
    pose proof (inc_chronological self _ Hp Hc') as [Hc2 Hw2].
    destruct (inc_returns self (clock + g) Hp)
      as (h & x & s & Eh & Hh & Hl & Hd & Ei & Es).
    cbn [Counter.calls]. rewrite Ei in *. cbn [fst Counter.hist] in *.
    set (self1 := Counter.mk _ _ h) in *.
    assert (Hs0 : 0 <= Counter.slept s).
    { rewrite Es. destruct (_ <=? _); cbn; lia. }
    destruct (IH self1 (clock + g + Counter.slept s)) as
      (self' & clock' & adm & E & Hp' & Hm' & Hc3 & Hw3 & Hn3);
      [done..| |done|].
    { destruct Hc2 as [Hs Hf]. split; [done|].
      eapply Forall_impl; [exact Hf|]. cbn. lia. }
    rewrite E. do 3 eexists. split; [done|]. do 4 (split; [done|]).
    intros _. apply Hn3. cbn. intros ->. discriminate.
Qed.

(** When time passes between the return of a call and the next reading of
    the clock, and the quota is at least one, the history never holds
    more than [maxhits] entries: a counter that is full has slept until
    its oldest entry left the window, so the next call prunes it. *)
Lemma inc_paced self clock g :
  0 <= Counter.period self -> 1 <= Counter.maxhits self -> 0 < g ->
  paced self clock ->
  exists self' s,
    Counter.inc self (clock + g) = (self', Return s)
    /\ Counter.period self' = Counter.period self
    /\ Counter.maxhits self' = Counter.maxhits self
    /\ paced self' (clock + g + Counter.slept s).
Proof.
  intros Hp Hm Hg (Hc & Hlen & Hfull).
  set (now := clock + g). set (d := Counter.timedelta (Counter.period self)).
  assert (Hc' : chronological (Counter.hist self) now).
  { destruct Hc as [Hs Hf]. split; [done|].
    eapply Forall_impl; [exact Hf|]. cbn. lia. }
  pose proof (inc_chronological self now Hp Hc') as [Hc2 _].
  destruct (inc_returns self now Hp)
    as (h & x & s & Eh & Hh & Hl & Hd & Ei & Es).
  rewrite Ei in Hc2. cbn [fst Counter.hist] in Hc2.
  exists (Counter.mk (Counter.period self) (Counter.maxhits self) h), s.
  split; [exact Ei|]. do 2 (split; [done|]).
  assert (Hs0 : 0 <= Counter.slept s).
  { rewrite Es. destruct (_ <=? _); cbn; fold d; lia. }
  assert (Hlen' : Z.of_nat (length h) <= Counter.maxhits self).
  { destruct (decide (Counter.maxhits self
                      <= Z.of_nat (length (Counter.hist self)))) as [Hf|Hf].
    - destruct (Hfull Hf) as (x0 & Hx0 & Hold).
      destruct (Counter.hist self) as [|x0' rest] eqn:Er; [done|].
      injection Hx0 as ->. fold d in Eh, Hold.
      change ((x0 :: rest) ++ [now]) with (x0 :: (rest ++ [now])) in Eh.
      cbn [Counter.prune] in Eh. rewrite last_cons, last_snoc in Eh.
      replace (d <? now - x0) with true in Eh
        by (symmetry; apply Z.ltb_lt; lia).
      destruct (prune_spec _ _ _ Eh) as (_ & _ & Hsuf & _).
      apply suffix_length in Hsuf. rewrite length_app in Hsuf.
      cbn [length] in *. lia.
    - destruct (prune_spec _ _ _ Eh) as (_ & _ & Hsuf & _).
      apply suffix_length in Hsuf. rewrite length_app in Hsuf.
      cbn [length] in *. lia. }
  unfold paced. cbn [Counter.hist Counter.maxhits Counter.period].
  split; [|split; [done|]].
  - destruct Hc2 as [Hs Hf]. split; [done|].
    eapply Forall_impl; [exact Hf|]. cbn. lia.
  - intros Hf. exists x. split; [done|].
    rewrite Es. apply Z.leb_le in Hf. rewrite Hf. cbn. fold d now. lia.
Qed.

Lemma calls_paced gaps : forall self clock,
  0 <= Counter.period self -> 1 <= Counter.maxhits self ->
  Forall (Z.lt 0) gaps ->
  paced self clock ->
  exists self' clock' admitted,
    Counter.calls self clock gaps = Return (self', clock', admitted)
    /\ Z.of_nat (length (Counter.hist self')) <= Counter.maxhits self.
Proof.
  induction gaps as [|g gaps IH]; intros self clock Hp Hm Hg Hpaced.
  - exists self, clock, []. split; [done|]. by destruct Hpaced as (_ & ? & _).
  - apply Forall_cons in Hg as [Hg0 Hg].
    destruct (inc_paced self clock g Hp Hm Hg0 Hpaced)
      as (self1 & s & Ei & Hp1 & Hm1 & Hpaced1).
    cbn [Counter.calls]. rewrite Ei.
    destruct (IH self1 (clock + g + Counter.slept s))
      as (self' & clock' & adm & E & Hlen); [lia|lia|done|done|].
    rewrite E. do 3 eexists. split; [done|]. lia.
Qed.

(** C4. After every call to [inc] (each call of every run of calls on a
    counter whose history is in the order of time, read off a clock that
    does not go back) the call returns and every timestamp left in the
    history lies within the window of the newest one, which is there. *)
Theorem inc_leaves_history_within_window self clock gaps :
  0 <= Counter.period self ->
  Forall (Z.le 0) gaps ->
  gaps <> [] ->
  chronological (Counter.hist self) clock ->
  exists self' clock' admitted,
    Counter.calls self clock gaps = Return (self', clock', admitted)
    /\ Counter.hist self' <> []
    /\ within_window (Counter.timedelta (Counter.period self))
         (Counter.hist self').
Proof.
  intros Hp Hg Hne Hc. destruct gaps as [|g gaps]; [done|].
  apply Forall_cons in Hg as [Hg0 Hg].
  assert (Hc' : chronological (Counter.hist self) (clock + g)).
  { destruct Hc as [Hs Hf]. split; [done|].
    eapply Forall_impl; [exact Hf|]. cbn. lia. }
  pose proof (inc_chronological self _ Hp Hc') as [Hc2 Hw2].
  destruct (inc_returns self (clock + g) Hp)
    as (h & x & s & Eh & Hh & Hl & Hd & Ei & Es).
  cbn [Counter.calls]. rewrite Ei in *. cbn [fst Counter.hist] in *.
  set (self1 := Counter.mk _ _ h) in *.
  assert (Hs0 : 0 <= Counter.slept s).
  { rewrite Es. destruct (_ <=? _); cbn; lia. }
  destruct (calls_chronological gaps self1 (clock + g + Counter.slept s))
    as (self' & clock' & adm & E & _ & _ & _ & Hw3 & Hn3); [done..| |done|].
  { destruct Hc2 as [Hs Hf]. split; [done|].
    eapply Forall_impl; [exact Hf|]. cbn. lia. }
  rewrite E. do 3 eexists. split; [done|]. split; [|done].
  apply Hn3. cbn. intros ->. discriminate.
Qed.

Lemma inc_leaves_history_within_window_witness :
  exists self' clock' admitted,
    Counter.calls (Counter.mk 10 2 []) 0 [0; 1000000; 1000000]
    = Return (self', clock', admitted)
    /\ Counter.hist self' <> []
    /\ within_window (Counter.timedelta 10) (Counter.hist self').
Proof.
  apply (inc_leaves_history_within_window (Counter.mk 10 2 []) 0
           [0; 1000000; 1000000]).
  - cbn. lia.
  - repeat constructor; lia.
  - discriminate.
  - split; constructor.
Defined.

(** C3. Whenever the history that [inc] retains after pruning holds
    [maxhits] entries or more, [inc] sleeps for exactly the window minus
    the span from the oldest to the newest retained timestamp.  With a
    quota of 2 in a window of 10 seconds and the timestamps 0 and 1
    recorded, the call that records 2 sleeps 8 seconds and returns at
    10. *)
Theorem inc_sleeps_window_minus_span :
  (forall self now h,
     Counter.prune (Counter.timedelta (Counter.period self))
       (Counter.hist self ++ [now]) = Return h ->
     Counter.maxhits self <= Z.of_nat (length h) ->
     exists oldest newest,
       head h = Some oldest /\ last h = Some newest
       /\ Counter.inc self now
          = (Counter.mk (Counter.period self) (Counter.maxhits self) h,
             Return (Some (Counter.timedelta (Counter.period self)
                           - (newest - oldest)))))
  /\ Counter.inc (Counter.mk 10 2 [0; 1000000]) 2000000
     = (Counter.mk 10 2 [0; 1000000; 2000000], Return (Some 8000000))
  /\ Counter.calls (Counter.mk 10 2 [0; 1000000]) 1000000 [1000000]
     = Return (Counter.mk 10 2 [0; 1000000; 2000000], 10000000, [10000000]).
Proof.
  split; [|split; reflexivity].
  intros self now h Eh Hfull.
  destruct (prune_spec _ _ _ Eh) as (x & y & _ & Hh & Hl & Hd).
  exists x, y. do 2 (split; [done|]).
  unfold Counter.inc. cbv zeta. rewrite Eh.
  apply Z.leb_le in Hfull. rewrite Hfull.
  destruct h as [|x' t]; [done|]. injection Hh as ->. rewrite Hl.
  unfold Counter.sleep.
  replace (_ <? 0) with false; [done|].
  symmetry. apply Z.ltb_ge. lia.
Qed.

Lemma inc_sleeps_window_minus_span_witness :
  exists oldest newest,
    head [1000000; 5000000; 11000000] = Some oldest
    /\ last [1000000; 5000000; 11000000] = Some newest
    /\ Counter.inc (Counter.mk 10 3 [0; 1000000; 5000000]) 11000000
       = (Counter.mk 10 3 [1000000; 5000000; 11000000],
          Return (Some (Counter.timedelta 10 - (newest - oldest)))).
Proof.
  apply (proj1 inc_sleeps_window_minus_span
           (Counter.mk 10 3 [0; 1000000; 5000000]) 11000000
           [1000000; 5000000; 11000000]).
  - reflexivity.
  - cbn. lia.
Defined.

(** C1, at an input where the code breaks it.  An account for 600
    workers has a quota of 2 calls in 300 seconds.  Four calls are made
    with no time passing between the return of one and the next reading
    of the clock.  The second sleeps 300 seconds; the third and the
    fourth are then let through at once: three calls return at the same
    instant, and the history keeps four timestamps, all within the
    window of the newest. *)
Theorem inc_goes_over_quota_on_ties :
  exists a c c' admitted,
    Account.init (always body_other) 0 "" "" true false 600 env0
    = (Return a, env0)
    /\ Account.counter a = Some c
    /\ Counter.maxhits c = 2
    /\ Counter.period c = 300
    /\ Counter.calls c 0 [0; 0; 0; 0] = Return (c', 300000000, admitted)
    /\ admitted = [0; 300000000; 300000000; 300000000]
    /\ Counter.hist c' = [0; 0; 300000000; 300000000]
    /\ Counter.maxhits c < Z.of_nat (length (Counter.hist c'))
    /\ within_window (Counter.timedelta (Counter.period c)) (Counter.hist c').
Proof.
  do 4 eexists. do 7 (split; [reflexivity|]). split; [reflexivity|].
  intros y [= <-].
  repeat (apply List.Forall_cons; [unfold Counter.timedelta; cbn; lia|]).
  apply List.Forall_nil.
Qed.

End CounterFacts.

(** * Properties of the account *)

Section AccountFacts.

Implicit Types (w : Account.world) (net : network) (p : dictref).
Implicit Types (suffix : string) (r : envelope) (d : gmap string value).

(** With a counter that is bound and a window that is not negative the
    guard returns; it changes the counter and the clock and nothing
    else. *)
Lemma counter_inc_ready w :
  ready w ->
  exists c dt,
    Account.counter_inc w
    = (Return tt, Account.advance dt (Account.set_counter c w))
    /\ 0 <= Counter.period c.
Proof.
  intros (c & Hc & Hp).
  destruct (inc_returns c (clock (Account.outside w)) Hp)
    as (h & x & s & _ & _ & _ & _ & Ei & _).
  unfold Account.counter_inc. rewrite Hc, Ei.
  eexists _, _. split; [reflexivity|]. done.
Qed.

(** Without a counter the guard raises before anything else happens. *)
Lemma counter_inc_unbound w :
  Account.counter (Account.this w) = None ->
  Account.counter_inc w = (Raise AttributeError, w).
Proof. intros Hc. unfold Account.counter_inc. by rewrite Hc. Qed.

(** The guard followed by the request, on an account that is ready and
    a provider that answers. *)
Lemma request_step net v suffix body p w ans :
  ready w ->
  serve net (Account.request_for (Account.this w) v suffix
               (dicts (Account.outside w) p) body) = Some ans ->
  exists w0 w1,
    Account.counter_inc w = (Return tt, w0)
    /\ Account.call net v suffix body p w0 = (Return ans, w1)
    /\ ready w1
    /\ same_account w w1
    /\ dicts (Account.outside w1) = dicts (Account.outside w)
    /\ stdout (Account.outside w1) = stdout (Account.outside w)
    /\ sent (Account.outside w1)
       = sent (Account.outside w)
         ++ [Account.request_for (Account.this w) v suffix
               (dicts (Account.outside w) p) body].
Proof.
  intros Hr Hs.
  destruct (counter_inc_ready w Hr) as (c & dt & Ec & Hp).
  eexists _, _. split; [exact Ec|].
  unfold Account.call, Account.send.
  change (Account.request_for
            (Account.this (Account.advance dt (Account.set_counter c w)))
            v suffix
            (dicts (Account.outside
                      (Account.advance dt (Account.set_counter c w))) p) body)
    with (Account.request_for (Account.this w) v suffix
            (dicts (Account.outside w) p) body).
  rewrite Hs. split; [reflexivity|].
  split; [by exists c|]. done.
Qed.

(** What [ans_check] does with a response that reports a failure and
    lists an error. *)
Lemma ans_check_failure r e rest w :
  success r = Some false -> errors r = Some (e :: rest) ->
  Account.ans_check (body_json r) w
  = (Return None, Account.print (APIError (code e) (message e)) w).
Proof.
  intros Hs He. unfold Account.ans_check, Account.ans_check_try.
  by rewrite Hs, He.
Qed.

(** What [ans_check] does with a response that reports success. *)
Lemma ans_check_success r c w :
  success r = Some true -> result r = Some c ->
  Account.ans_check (body_json r) w
  = (Return (Some {| Account.content := c;
                     Account.info := result_info r |}), w).
Proof.
  intros Hs Hc. unfold Account.ans_check, Account.ans_check_try.
  by rewrite Hs, Hc.
Qed.

(** [post] and [put] on a response that reports success: the mapping
    [ans_check] returns is unpacked into its keys. *)
Lemma send_body_success net v suffix body p w r c :
  ready w ->
  serve net (Account.request_for (Account.this w) v suffix
               (dicts (Account.outside w) p) (Some body))
  = Some (body_json r) ->
  success r = Some true -> result r = Some c ->
  fst (Account.send_body net v suffix body p w)
  = match result_info r with
    | Some _ => Return (VStr "content")
    | None => Raise ValueError
    end.
Proof.
  intros Hr Hs Hok Hc.
  destruct (request_step net v suffix (Some body) p w _ Hr Hs)
    as (w0 & w1 & E0 & E1 & _).
  unfold Account.send_body, bind. rewrite E0, E1.
  rewrite (ans_check_success r c w1 Hok Hc).
  unfold lift, Account.unpack2, Account.checked_keys. cbn.
  by destruct (result_info r).
Qed.

(** C7. The [APIError] that [ans_check] raises for a response with
    [success] false is caught in [ans_check] itself: the function prints
    it and returns [None], and no call of [ans_check] ever ends with an
    [APIError]. *)
Theorem ans_check_swallows_APIError :
  (forall ans w c m,
     fst (Account.ans_check ans w) <> Raise (APIError c m))
  /\ (forall r e rest w,
        success r = Some false -> errors r = Some (e :: rest) ->
        Account.ans_check_try (body_json r)
        = Raise (APIError (code e) (message e))
        /\ Account.ans_check (body_json r) w
           = (Return None,
              Account.print (APIError (code e) (message e)) w)
        /\ stdout (Account.outside (snd (Account.ans_check (body_json r) w)))
           = stdout (Account.outside w)
             ++ [APIError (code e) (message e)]).
Proof.
  split.
  - intros ans w c m. unfold Account.ans_check.
    destruct (Account.ans_check_try ans) as [res|[]]; cbn; discriminate.
  - intros r e rest w Hs He.
    rewrite (ans_check_failure r e rest w Hs He).
    split; [|done].
    unfold Account.ans_check_try. by rewrite Hs, He.
Qed.

Lemma ans_check_swallows_APIError_witness :
  let r := {| success := Some false;
              result := None;
              errors := Some [{| code := 1003; message := "Invalid zone" |}];
              result_info := None |} in
  let w := {| Account.this :=
                {| Account.acc_headers := [];
                   Account.endpoint := "https://api.cloudflare.com/client/v4";
                   Account.maxhits := 1200;
                   Account.period := 300;
                   Account.counter := Some (Counter.mk 300 1200 []);
                   Account.zones := None |};
              Account.outside := env0 |} in
  Account.ans_check_try (body_json r) = Raise (APIError 1003 "Invalid zone")
  /\ Account.ans_check (body_json r) w
     = (Return None, Account.print (APIError 1003 "Invalid zone") w)
  /\ stdout (Account.outside (snd (Account.ans_check (body_json r) w)))
     = stdout (Account.outside w) ++ [APIError 1003 "Invalid zone"].
Proof.
  intros r w.
  apply (proj2 ans_check_swallows_APIError r
           {| code := 1003; message := "Invalid zone" |} [] w);
    reflexivity.
Defined.

(** Whatever the response with [success] false lists as errors, [get]
    ends with an exception, and never with an [APIError]. *)
Lemma get_on_failure_never_returns net depth suffix p w r :
  ready w ->
  serve net (Account.request_for (Account.this w) GET suffix
               (dicts (Account.outside w) p) None)
  = Some (body_json r) ->
  success r = Some false ->
  (forall v, fst (Account.get net (S depth) suffix p w) <> Return v)
  /\ (forall c m,
        fst (Account.get net (S depth) suffix p w) <> Raise (APIError c m)).
Proof.
  intros Hr Hs Hf.
  destruct (request_step net GET suffix None p w _ Hr Hs)
    as (w0 & w1 & E0 & E1 & _).
  cbn [Account.get]. unfold bind. rewrite E0, E1.
  unfold Account.ans_check, Account.ans_check_try. rewrite Hf.
  destruct (errors r) as [[|e rest]|]; cbn; split; intros; discriminate.
Qed.

(** C9. When the response to a [get] has [success] false (and lists an
    error), [get] neither returns nor raises [APIError]: [ans_check]
    prints the error and returns [None], and [get] fails on
    [res["content"]] with a [TypeError], after one request. *)
Theorem get_fails_untyped_on_failure net depth suffix p w r e rest :
  ready w ->
  serve net (Account.request_for (Account.this w) GET suffix
               (dicts (Account.outside w) p) None)
  = Some (body_json r) ->
  success r = Some false ->
  errors r = Some (e :: rest) ->
  exists w',
    Account.get net (S depth) suffix p w = (Raise TypeError, w')
    /\ (forall v, fst (Account.get net (S depth) suffix p w) <> Return v)
    /\ (forall c m,
          fst (Account.get net (S depth) suffix p w) <> Raise (APIError c m))
    /\ stdout (Account.outside w')
       = stdout (Account.outside w) ++ [APIError (code e) (message e)]
    /\ length (sent (Account.outside w'))
       = S (length (sent (Account.outside w))).
Proof.
  intros Hr Hs Hf He.
  destruct (request_step net GET suffix None p w _ Hr Hs)
    as (w0 & w1 & E0 & E1 & _ & _ & _ & Hout & Hsent).
  assert (G : Account.get net (S depth) suffix p w
              = (Raise TypeError,
                 Account.print (APIError (code e) (message e)) w1)).
  { cbn [Account.get]. unfold bind. rewrite E0, E1.
    by rewrite (ans_check_failure r e rest w1 Hf He). }
  eexists. split; [exact G|]. rewrite G. cbn.
  split; [discriminate|]. split; [discriminate|].
  rewrite Hout, Hsent, length_app. cbn. split; [done|lia].
Qed.

Lemma get_fails_untyped_on_failure_witness :
  let ans := body_json
               {| success := Some false;
                  result := None;
                  errors :=
                    Some [{| code := 1003; message := "Invalid zone" |}];
                  result_info := None |} in
  let w := {| Account.this :=
                {| Account.acc_headers := [];
                   Account.endpoint := "https://api.cloudflare.com/client/v4";
                   Account.maxhits := 1200;
                   Account.period := 300;
                   Account.counter := Some (Counter.mk 300 1200 []);
                   Account.zones := None |};
              Account.outside := env0 |} in
  exists w',
    Account.get (always ans) 1 "/zones" get_p w = (Raise TypeError, w')
    /\ (forall v, fst (Account.get (always ans) 1 "/zones" get_p w)
                  <> Return v)
    /\ (forall c m, fst (Account.get (always ans) 1 "/zones" get_p w)
                    <> Raise (APIError c m))
    /\ stdout (Account.outside w')
       = stdout (Account.outside w) ++ [APIError 1003 "Invalid zone"]
    /\ length (sent (Account.outside w'))
       = S (length (sent (Account.outside w))).
Proof.
  intros ans w.
  apply (get_fails_untyped_on_failure (always ans) 0 "/zones" get_p w
           {| success := Some false;
              result := None;
              errors := Some [{| code := 1003; message := "Invalid zone" |}];
              result_info := None |}
           {| code := 1003; message := "Invalid zone" |} []).
  - exists (Counter.mk 300 1200 []). split; [reflexivity|]. cbn. lia.
  - reflexivity.
  - reflexivity.
  - reflexivity.
Defined.

(** C5, at inputs where the code breaks it.  The response reports
    success and carries the result [{"id": "372e"}].  [post] and [put]
    unpack the mapping that [ans_check] returns, which yields its keys:
    without a [result_info] there is one key and the unpacking raises
    [ValueError]; with one, what is returned is the string ["content"],
    not the result.  [get], on the same response, returns the result. *)
Theorem post_and_put_do_not_return_the_result :
  let created := VDict [("id", VStr "372e")] in
  let bare := body_json {| success := Some true;
                           result := Some created;
                           errors := None;
                           result_info := None |} in
  let paginated := body_json {| success := Some true;
                                result := Some created;
                                errors := None;
                                result_info :=
                                  Some {| page := 1; total_pages := 1 |} |} in
  let body := VDict [("type", VStr "A"); ("name", VStr "www")] in
  exists a,
    Account.init (always bare) 1 "user@example.com" "key" true false 1 env0
    = (Return a, env0)
    /\ let w := {| Account.this := a; Account.outside := env0 |} in
       fst (Account.post (always bare) "/zones/1/dns_records" body post_p w)
       = Raise ValueError
       /\ fst (Account.put (always bare) "/zones/1/dns_records/2" body put_p w)
          = Raise ValueError
       /\ fst (Account.post (always paginated) "/zones/1/dns_records" body
                 post_p w)
          = Return (VStr "content")
       /\ fst (Account.put (always paginated) "/zones/1/dns_records/2" body
                 put_p w)
          = Return (VStr "content")
       /\ fst (Account.get (always bare) 1 "/zones/1" get_p w)
          = Return created.
Proof.
  intros created bare paginated body. eexists. split; [reflexivity|].
  cbv zeta. repeat split; vm_compute; reflexivity.
Qed.

(** C6, at an input where the code breaks it.  The response is
    [{"success": false, "errors": [{"code": 1003, "message": "Invalid
    zone"}]}].  [ans_check] builds the [APIError] with that code and
    message, prints it and returns [None]; [get], [post] and [put] then
    fail with a [TypeError] that carries neither. *)
Theorem failure_reaches_the_caller_as_TypeError :
  let refused := body_json
                   {| success := Some false;
                      result := None;
                      errors :=
                        Some [{| code := 1003; message := "Invalid zone" |}];
                      result_info := None |} in
  exists a,
    Account.init (always refused) 1 "user@example.com" "key" true false 1 env0
    = (Return a, env0)
    /\ let w := {| Account.this := a; Account.outside := env0 |} in
       Account.ans_check_try refused = Raise (APIError 1003 "Invalid zone")
       /\ fst (Account.get (always refused) 1 "/zones" get_p w)
          = Raise TypeError
       /\ fst (Account.post (always refused) "/zones" VNone post_p w)
          = Raise TypeError
       /\ fst (Account.put (always refused) "/zones" VNone put_p w)
          = Raise TypeError
       /\ stdout (Account.outside
                    (snd (Account.get (always refused) 1 "/zones" get_p w)))
          = [APIError 1003 "Invalid zone"].
Proof.
  intros refused. eexists. split; [reflexivity|].
  cbv zeta. repeat split; vm_compute; reflexivity.
Qed.

(** An account built without a counter has none, and is built only
    when [store] is false: with [store] true the constructor itself
    calls [get]. *)
Lemma init_without_counter net depth email key store nb_wkr o a o' :
  Account.init net depth email key false store nb_wkr o = (Return a, o') ->
  Account.counter a = None /\ store = false.
Proof.
  unfold Account.init. destruct (Account.quota nb_wkr) as [hits|]; [|done].
  destruct store.
  - unfold Account.list_zones. destruct depth as [|depth].
    + cbn. discriminate.
    + cbn [Account.get]. unfold bind.
      rewrite counter_inc_unbound by done. discriminate.
  - intros [= <- <-]. done.
Qed.

(** C10. On an account built with [count = False] the attribute
    [counter] is not bound, and [get], [post] and [put], which all read
    it first, raise [AttributeError]; the world is as before the call,
    so no request has been sent. *)
Theorem methods_fail_without_counter
  net depth email key store nb_wkr o a o' :
  Account.init net depth email key false store nb_wkr o = (Return a, o') ->
  Account.counter a = None
  /\ forall net' w,
       Account.this w = a ->
       (forall depth' suffix p,
          Account.get net' (S depth') suffix p w = (Raise AttributeError, w))
       /\ (forall suffix body p,
             Account.post net' suffix body p w = (Raise AttributeError, w))
       /\ (forall suffix body p,
             Account.put net' suffix body p w = (Raise AttributeError, w)).
Proof.
  intros Hi. destruct (init_without_counter _ _ _ _ _ _ _ _ _ Hi) as [Hc _].
  split; [done|]. intros net' w Hw. rewrite <- Hw in Hc.
  repeat split; intros.
  - cbn [Account.get]. unfold bind. by rewrite counter_inc_unbound.
  - unfold Account.post, Account.send_body, bind.
    by rewrite counter_inc_unbound.
  - unfold Account.put, Account.send_body, bind.
    by rewrite counter_inc_unbound.
Qed.

Lemma methods_fail_without_counter_witness :
  exists a,
    Account.counter a = None
    /\ forall net' w,
         Account.this w = a ->
         (forall depth' suffix p,
            Account.get net' (S depth') suffix p w
            = (Raise AttributeError, w))
         /\ (forall suffix body p,
               Account.post net' suffix body p w = (Raise AttributeError, w))
         /\ (forall suffix body p,
               Account.put net' suffix body p w = (Raise AttributeError, w)).
Proof.
  eexists.
  apply (methods_fail_without_counter (always body_other) 0
           "user@example.com" "key" false 1 env0 _ env0).
  reflexivity.
Defined.

Lemma request_for_same_account w w' v suffix d body :
  same_account w w' ->
  Account.request_for (Account.this w') v suffix d body
  = Account.request_for (Account.this w) v suffix d body.
Proof. intros [He Hh]. unfold Account.request_for. by rewrite He, Hh. Qed.

Lemma page_index_at d i :
  (d !! "page" = None /\ i = 0%nat)
  \/ d !! "page" = Some (VInt (Z.of_nat (S i))) ->
  page_index d = Some i.
Proof.
  unfold page_index. intros [[-> ->]| ->]; [done|].
  replace (1 <=? Z.of_nat (S i)) with true
    by (symmetry; apply Z.leb_le; lia).
  f_equal. lia.
Qed.

Lemma next_page_at d i :
  (d !! "page" = None /\ i = 0%nat)
  \/ d !! "page" = Some (VInt (Z.of_nat (S i))) ->
  Account.next_page d = Return (<["page" := VInt (Z.of_nat (S (S i)))]> d).
Proof.
  unfold Account.next_page. intros [[-> ->]| ->]; [done|].
  cbn [iadd as_int]. do 3 f_equal. lia.
Qed.

(** [get] against a provider that serves [pages], from page [S i] on,
    with [m] pages after that one and room for [m] nested calls. *)
Lemma get_paged pages suffix p : forall m i depth w d,
  ready w ->
  dicts (Account.outside w) p = d ->
  (d !! "page" = None /\ i = 0%nat)
  \/ d !! "page" = Some (VInt (Z.of_nat (S i))) ->
  (i + S m = length pages)%nat ->
  (m < depth)%nat ->
  exists w',
    Account.get (paged pages) depth suffix p w
    = (Return (VList (concat (drop i pages))), w')
    /\ ready w'
    /\ same_account w w'
    /\ sent (Account.outside w')
       = sent (Account.outside w)
         ++ Account.request_for (Account.this w) GET suffix d None
            :: map (fun j =>
                      Account.request_for (Account.this w) GET suffix
                        (<["page" := VInt (Z.of_nat (S j))]> d) None)
                 (seq (S i) m)
    /\ dicts (Account.outside w') p
       = match m with
         | O => d
         | S _ => <["page" := VInt (Z.of_nat (length pages))]> d
         end
    /\ (forall q, q <> p ->
          dicts (Account.outside w') q = dicts (Account.outside w) q)
    /\ stdout (Account.outside w') = stdout (Account.outside w).
Proof.
  induction m as [|m IH]; intros i depth w d Hr Hd Hpage Hlen Hdepth.
  - (* the last page *)
    destruct depth as [|depth]; [lia|].
    assert (Hi : (i < length pages)%nat) by lia.
    apply lookup_lt_is_Some in Hi as [items Hitems].
    assert (Hs : serve (paged pages)
                   (Account.request_for (Account.this w) GET suffix
                      (dicts (Account.outside w) p) None)
                 = Some (body_json (page_body pages i))).
    { cbn. rewrite Hd. by rewrite (page_index_at d i Hpage). }
    destruct (request_step _ GET suffix None p w _ Hr Hs)
      as (w0 & w1 & E0 & E1 & Hr1 & Hsame & Hdicts & Hout & Hsent).
    exists w1. cbn [Account.get]. unfold bind. rewrite E0, E1.
    unfold page_body. rewrite Hitems.
    rewrite (ans_check_success _ (VList items) w1) by done.
    cbn [Account.info Account.content result_info page total_pages].
    replace (Z.of_nat (S i) <? Z.of_nat (length pages)) with false
      by (symmetry; apply Z.ltb_ge; lia).
    unfold ret. split.
    { do 3 f_equal. rewrite (drop_S _ _ _ Hitems).
      rewrite drop_ge by lia. cbn. by rewrite app_nil_r. }
    split; [done|]. split; [done|]. split.
    { rewrite Hsent, Hd. done. }
    split; [by rewrite Hdicts|]. split; [|done].
    intros q _. by rewrite Hdicts.
  - (* a page that is followed by others *)
    destruct depth as [|depth]; [lia|].
    assert (Hi : (i < length pages)%nat) by lia.
    apply lookup_lt_is_Some in Hi as [items Hitems].
    assert (Hs : serve (paged pages)
                   (Account.request_for (Account.this w) GET suffix
                      (dicts (Account.outside w) p) None)
                 = Some (body_json (page_body pages i))).
    { cbn. rewrite Hd. by rewrite (page_index_at d i Hpage). }
    destruct (request_step _ GET suffix None p w _ Hr Hs)
      as (w0 & w1 & E0 & E1 & Hr1 & Hsame & Hdicts & Hout & Hsent).
    cbn [Account.get]. unfold bind. rewrite E0, E1.
    unfold page_body. rewrite Hitems.
    rewrite (ans_check_success _ (VList items) w1) by done.
    cbn [Account.info Account.content result_info page total_pages].
    replace (Z.of_nat (S i) <? Z.of_nat (length pages)) with true
      by (symmetry; apply Z.ltb_lt; lia).
    unfold Account.turn_page. rewrite Hdicts, Hd.
    rewrite (next_page_at d i Hpage).
    set (d1 := <["page" := VInt (Z.of_nat (S (S i)))]> d).
    set (w2 := Account.store p d1 w1).
    assert (Hr2 : ready w2) by (destruct Hr1 as (c & ? & ?); by exists c).
    assert (Hd2 : dicts (Account.outside w2) p = d1).
    { cbn. apply fn_lookup_insert. }
    assert (Hpage2 : (d1 !! "page" = None /\ S i = 0%nat)
                     \/ d1 !! "page" = Some (VInt (Z.of_nat (S (S i))))).
    { right. apply lookup_insert_eq. }
    destruct (IH (S i) depth w2 d1 Hr2 Hd2 Hpage2 ltac:(lia) ltac:(lia))
      as (w' & E & Hr' & Hsame' & Hsent' & Hdicts' & Hother' & Hout').
    rewrite E. unfold lift. cbn [iadd iterate].
    exists w'. split.
    { do 3 f_equal. by rewrite (drop_S _ _ _ Hitems). }
    split; [done|].
    assert (Hsame2 : same_account w w2) by done.
    split.
    { destruct Hsame2 as [? ?], Hsame' as [? ?]. split; congruence. }
    split.
    { rewrite Hsent'. change (sent (Account.outside w2))
        with (sent (Account.outside w1)).
      rewrite Hsent, Hd, <- app_assoc. cbn [app seq map].
      rewrite !(request_for_same_account w w2) by done.
      do 3 f_equal. apply map_ext. intros j.
      rewrite (request_for_same_account w w2) by done.
      unfold d1. by rewrite insert_insert_eq. }
    split.
    { rewrite Hdicts'. destruct m as [|m].
      - unfold d1. do 3 f_equal. lia.
      - unfold d1. by rewrite insert_insert_eq. }
    split; [|by rewrite Hout'].
    intros q Hq. rewrite (Hother' q Hq). cbn.
    rewrite fn_lookup_insert_ne by done. by rewrite Hdicts.
Qed.

(** One level of [get] on a response that announces more pages: the
    mapping [p] is updated and [get] calls itself; what the nested call
    returns is added to the content of this response. *)
Lemma get_follow_up net depth suffix p w r c i d' :
  ready w ->
  serve net (Account.request_for (Account.this w) GET suffix
               (dicts (Account.outside w) p) None)
  = Some (body_json r) ->
  success r = Some true -> result r = Some c ->
  result_info r = Some i -> page i < total_pages i ->
  Account.next_page (dicts (Account.outside w) p) = Return d' ->
  exists w1,
    sent (Account.outside w1)
    = sent (Account.outside w)
      ++ [Account.request_for (Account.this w) GET suffix
            (dicts (Account.outside w) p) None]
    /\ dicts (Account.outside w1) = dicts (Account.outside w)
    /\ Account.get net (S depth) suffix p w
       = match Account.get net depth suffix p (Account.store p d' w1) with
         | (Return more, w2) => (iadd c more, w2)
         | (Raise e, w2) => (Raise e, w2)
         end.
Proof.
  intros Hr Hs Hok Hc Hi Hlt Hn.
  destruct (request_step _ GET suffix None p w _ Hr Hs)
    as (w0 & w1 & E0 & E1 & _ & _ & Hdicts & _ & Hsent).
  exists w1. do 2 (split; [done|]).
  cbn [Account.get]. unfold bind. rewrite E0, E1.
  rewrite (ans_check_success r c w1 Hok Hc).
  cbn [Account.info Account.content]. rewrite Hi.
  apply Z.ltb_lt in Hlt. rewrite Hlt.
  unfold Account.turn_page. rewrite Hdicts, Hn.
  by destruct (Account.get net depth suffix p (Account.store p d' w1))
    as [[more|e] w2].
Qed.

(** C2.  A [get] whose response announces [page < total_pages] sends a
    follow-up [get] with the same mapping, in which [page] has been set
    to 2 if it was absent and raised by 1 otherwise, and adds what the
    follow-up returns to the content of its own response; two lists are
    added by appending the second to the first.  Against a provider that
    serves a listing in pages, with room for as many nested calls as
    there are pages left, this goes on to the last page: one request per
    page, and the items of all pages returned in page order, each page
    once. *)
Theorem get_concatenates_pages :
  (forall net depth suffix p w r c i d',
     ready w ->
     serve net (Account.request_for (Account.this w) GET suffix
                  (dicts (Account.outside w) p) None)
     = Some (body_json r) ->
     success r = Some true -> result r = Some c ->
     result_info r = Some i -> page i < total_pages i ->
     Account.next_page (dicts (Account.outside w) p) = Return d' ->
     exists w1,
       sent (Account.outside w1)
       = sent (Account.outside w)
         ++ [Account.request_for (Account.this w) GET suffix
               (dicts (Account.outside w) p) None]
       /\ Account.get net (S depth) suffix p w
          = match Account.get net depth suffix p (Account.store p d' w1) with
            | (Return more, w2) => (iadd c more, w2)
            | (Raise e, w2) => (Raise e, w2)
            end)
  /\ (forall d,
        (d !! "page" = None ->
         Account.next_page d = Return (<["page" := VInt 2]> d))
        /\ (forall k, d !! "page" = Some (VInt k) ->
              Account.next_page d = Return (<["page" := VInt (k + 1)]> d)))
  /\ (forall items more,
        iadd (VList items) (VList more) = Return (VList (items ++ more)))
  /\ (forall pages suffix p i depth w,
        ready w ->
        (dicts (Account.outside w) p !! "page" = None /\ i = 0%nat)
        \/ dicts (Account.outside w) p !! "page"
           = Some (VInt (Z.of_nat (S i))) ->
        (i < length pages)%nat ->
        (length pages - i <= depth)%nat ->
        exists w',
          Account.get (paged pages) depth suffix p w
          = (Return (VList (concat (drop i pages))), w')
          /\ sent (Account.outside w')
             = sent (Account.outside w)
               ++ Account.request_for (Account.this w) GET suffix
                    (dicts (Account.outside w) p) None
                  :: map (fun j =>
                            Account.request_for (Account.this w) GET suffix
                              (<["page" := VInt (Z.of_nat (S j))]>
                                 (dicts (Account.outside w) p)) None)
                       (seq (S i) (length pages - S i))).
Proof.
  split; [|split; [|split]].
  - intros net depth suffix p w r c i d' Hr Hs Hok Hc Hi Hlt Hn.
    destruct (get_follow_up net depth suffix p w r c i d'
                Hr Hs Hok Hc Hi Hlt Hn) as (w1 & Hsent & _ & E).
    by exists w1.
  - intros d. unfold Account.next_page. split.
    + by intros ->.
    + by intros k ->.
  - done.
  - intros pages suffix p i depth w Hr Hpage Hi Hdepth.
    destruct (get_paged pages suffix p (length pages - S i) i depth w
                (dicts (Account.outside w) p) Hr eq_refl Hpage
                ltac:(lia) ltac:(lia))
      as (w' & E & _ & _ & Hsent & _).
    exists w'. done.
Qed.

Lemma get_concatenates_pages_witness :
  let pages := [[VInt 1; VInt 2]; [VInt 3; VInt 4]; [VInt 5]] in
  let a := {| Account.acc_headers := [];
              Account.endpoint := "https://api.cloudflare.com/client/v4";
              Account.maxhits := 1200;
              Account.period := 300;
              Account.counter := Some (Counter.mk 300 1200 []);
              Account.zones := None |} in
  let w := {| Account.this := a; Account.outside := env0 |} in
  exists w',
    Account.get (paged pages) 3 "/zones" get_p w
    = (Return (VList [VInt 1; VInt 2; VInt 3; VInt 4; VInt 5]), w')
    /\ sent (Account.outside w')
       = [Account.request_for a GET "/zones" ∅ None;
          Account.request_for a GET "/zones" {["page" := VInt 2]} None;
          Account.request_for a GET "/zones" {["page" := VInt 3]} None].
Proof.
  intros pages a w.
  apply (proj2 (proj2 (proj2 get_concatenates_pages))
           pages "/zones" get_p 0%nat 3%nat w).
  - exists (Counter.mk 300 1200 []). split; [reflexivity|]. cbn. lia.
  - left. split; reflexivity.
  - cbn. lia.
  - cbn. lia.
Defined.

(** C8. The default value of [p] is one mapping shared by all calls of
    [get].  After a [get] without [p] that went through [n >= 2] pages
    that mapping holds [page = n]; the next [get] without [p] sends its
    first, and only, request with that [page] and returns the last page
    alone instead of the listing from page 1. *)
Theorem default_query_leaks_page pages last_page suffix suffix' depth w :
  ready w ->
  dicts (Account.outside w) get_p = ∅ ->
  (2 <= length pages)%nat ->
  (length pages <= depth)%nat ->
  last pages = Some last_page ->
  exists w1 w2,
    Account.get (paged pages) depth suffix get_p w
    = (Return (VList (concat pages)), w1)
    /\ dicts (Account.outside w1) get_p
       = {["page" := VInt (Z.of_nat (length pages))]}
    /\ Account.get (paged pages) depth suffix' get_p w1
       = (Return (VList last_page), w2)
    /\ sent (Account.outside w2)
       = sent (Account.outside w1)
         ++ [Account.request_for (Account.this w) GET suffix'
               {["page" := VInt (Z.of_nat (length pages))]} None].
Proof.
  intros Hr Hd Hlen Hdepth Hlast.
  destruct (length pages) as [|[|n]] eqn:En; [lia|lia|].
  destruct (get_paged pages suffix get_p (S n) 0 depth w ∅ Hr Hd
              ltac:(by left) ltac:(lia) ltac:(lia))
    as (w1 & E1 & Hr1 & Hsame1 & _ & Hd1 & _).
  rewrite insert_empty in Hd1.
  assert (Hpage : (dicts (Account.outside w1) get_p !! "page" = None
                   /\ S n = 0%nat)
                  \/ dicts (Account.outside w1) get_p !! "page"
                     = Some (VInt (Z.of_nat (S (S n))))).
  { right. rewrite Hd1, En. apply lookup_singleton_eq. }
  destruct (get_paged pages suffix' get_p 0 (S n) depth w1 _ Hr1 eq_refl
              Hpage ltac:(lia) ltac:(lia))
    as (w2 & E2 & _ & _ & Hsent2 & _).
  exists w1, w2. split; [exact E1|]. split; [by rewrite Hd1, En|].
  split.
  - rewrite E2. do 3 f_equal.
    apply last_Some in Hlast as [front ->].
    rewrite length_app in En. cbn in En.
    rewrite drop_app_length'; [by cbn; rewrite app_nil_r|lia].
  - rewrite Hsent2. cbn [seq map]. rewrite Hd1, En.
    by rewrite (request_for_same_account w w1).
Qed.

Lemma default_query_leaks_page_witness :
  let pages := [[VInt 1; VInt 2]; [VInt 3; VInt 4]; [VInt 5]] in
  let a := {| Account.acc_headers := [];
              Account.endpoint := "https://api.cloudflare.com/client/v4";
              Account.maxhits := 1200;
              Account.period := 300;
              Account.counter := Some (Counter.mk 300 1200 []);
              Account.zones := None |} in
  let w := {| Account.this := a; Account.outside := env0 |} in
  exists w1 w2,
    Account.get (paged pages) 3 "/zones" get_p w
    = (Return (VList (concat pages)), w1)
    /\ dicts (Account.outside w1) get_p = {["page" := VInt 3]}
    /\ Account.get (paged pages) 3 "/zones/1/dns_records" get_p w1
       = (Return (VList [VInt 5]), w2)
    /\ sent (Account.outside w2)
       = sent (Account.outside w1)
         ++ [Account.request_for a GET "/zones/1/dns_records"
               {["page" := VInt 3]} None].
Proof.
  intros pages a w.
  apply (default_query_leaks_page pages [VInt 5] "/zones"
           "/zones/1/dns_records" 3 w).
  - exists (Counter.mk 300 1200 []). split; [reflexivity|]. cbn. lia.
  - reflexivity.
  - cbn. lia.
  - cbn. lia.
  - reflexivity.
Defined.

End AccountFacts.

(** * More about the counter *)

Section CounterPacing.

Implicit Types (h k gaps past : list Z) (d x y now clock g : Z).
Implicit Types (self : Counter.t) (m : nat).

(** What [prune] removes is a prefix, and each entry it removes was more
    than [d] before [now]. *)
Lemma prune_split d h now h' :
  Counter.prune d (h ++ [now]) = Return h' ->
  exists k, h ++ [now] = k ++ h' /\ Forall (fun x => d < now - x) k.
Proof.
  revert h'. induction h as [|a h IH]; intros h' E.
  - cbn in E. destruct (d <? now - now); [discriminate|].
    injection E as <-. by exists [].
  - change ((a :: h) ++ [now]) with (a :: (h ++ [now])) in *.
    cbn [Counter.prune] in E. rewrite last_cons, last_snoc in E.
    destruct (Z.ltb_spec d (now - a)) as [Hlt|Hge].
    + destruct (IH _ E) as (k & Hk & Hf).
      exists (a :: k). split; [by rewrite Hk|]. by constructor.
    + injection E as <-. by exists [].
Qed.

(** A call of [inc] on a chronological history, with a window that is
    not negative, never fails and never sleeps longer than the window:
    what it sleeps lies between 0 and the period, and the timestamp it
    read is the newest entry of the history it leaves. *)
Theorem inc_sleeps_at_most_a_period self now :
  0 <= Counter.period self ->
  chronological (Counter.hist self) now ->
  exists self' s,
    Counter.inc self now = (self', Return s)
    /\ 0 <= Counter.slept s <= Counter.timedelta (Counter.period self)
    /\ last (Counter.hist self') = Some now
    /\ Counter.hist self' `suffix_of` (Counter.hist self ++ [now]).
Proof.
  intros Hp Hc.
  destruct (inc_returns self now Hp)
    as (h & x & s & Eh & Hh & Hl & Hd & Ei & Es).
  pose proof (inc_chronological self now Hp Hc) as [[_ Hf] _].
  rewrite Ei in Hf. cbn [fst Counter.hist] in Hf.
  assert (Hx : x <= now).
  { destruct h as [|x' t]; [done|]. injection Hh as ->.
    by apply Forall_cons in Hf as [? _]. }
  exists (Counter.mk (Counter.period self) (Counter.maxhits self) h), s.
  split; [exact Ei|]. split.
  - rewrite Es. destruct (_ <=? _); cbn; unfold Counter.timedelta in *; lia.
  - split; [done|]. by destruct (prune_spec _ _ _ Eh) as (_ & _ & ? & _).
Qed.

Lemma inc_sleeps_at_most_a_period_witness :
  exists self' s,
    Counter.inc (Counter.mk 300 2 [0; 250000000]) 290000000
    = (self', Return s)
    /\ 0 <= Counter.slept s <= Counter.timedelta 300
    /\ last (Counter.hist self') = Some 290000000
    /\ Counter.hist self' `suffix_of` [0; 250000000; 290000000].
Proof.
  apply (inc_sleeps_at_most_a_period
           (Counter.mk 300 2 [0; 250000000]) 290000000).
  - cbn. lia.
  - split.
    + repeat constructor; lia.
    + repeat constructor; lia.
Defined.

(** With a quota of one call or less every call of [inc] sleeps, and on
    an empty history it sleeps the whole period. *)
Theorem inc_always_sleeps_on_small_quota self now :
  0 <= Counter.period self ->
  Counter.maxhits self <= 1 ->
  (exists delay, snd (Counter.inc self now) = Return (Some delay))
  /\ (Counter.hist self = [] ->
      snd (Counter.inc self now)
      = Return (Some (Counter.timedelta (Counter.period self)))).
Proof.
  intros Hp Hm.
  destruct (inc_returns self now Hp)
    as (h & x & s & Eh & Hh & Hl & Hd & Ei & Es).
  assert (Hfull : (Counter.maxhits self <=? Z.of_nat (length h)) = true).
  { apply Z.leb_le. destruct h; [done|]. cbn [length]. lia. }
  rewrite Hfull in Es. rewrite Ei. cbn [snd]. split.
  - rewrite Es. eauto.
  - intros Hnil. rewrite Hnil in Eh. cbn in Eh.
    destruct (_ <? now - now); [discriminate|]. injection Eh as <-.
    injection Hh as <-. rewrite Es. do 2 f_equal. lia.
Qed.

Lemma inc_always_sleeps_on_small_quota_witness :
  (exists delay,
     snd (Counter.inc (Counter.mk 300 1 []) 7000000) = Return (Some delay))
  /\ (Counter.hist (Counter.mk 300 1 []) = [] ->
      snd (Counter.inc (Counter.mk 300 1 []) 7000000)
      = Return (Some (Counter.timedelta 300))).
Proof.
  apply (inc_always_sleeps_on_small_quota (Counter.mk 300 1 []) 7000000);
    cbn; lia.
Defined.

(** When the clock is read strictly later than the previous call
    returned, and the quota is at least one, a counter that starts with
    an empty history never holds more than [maxhits] timestamps. *)
Theorem history_stays_within_quota self clock gaps :
  0 <= Counter.period self ->
  1 <= Counter.maxhits self ->
  Counter.hist self = [] ->
  Forall (Z.lt 0) gaps ->
  exists self' clock' admitted,
    Counter.calls self clock gaps = Return (self', clock', admitted)
    /\ Z.of_nat (length (Counter.hist self')) <= Counter.maxhits self
    /\ length admitted = length gaps.
Proof.
  intros Hp Hm Hnil Hg.
  assert (Hpaced : paced self clock).
  { unfold paced. rewrite Hnil. cbn. split; [split; constructor|].
    split; [lia|]. lia. }
  destruct (calls_paced gaps self clock Hp Hm Hg Hpaced)
    as (self' & clock' & adm & E & Hlen).
  exists self', clock', adm. split; [done|]. split; [done|].
  clear -E. revert self clock self' clock' adm E.
  induction gaps as [|g gaps IH]; intros self clock self' clock' adm E.
  - by injection E as <- <- <-.
  - cbn [Counter.calls] in E.
    destruct (Counter.inc self (clock + g)) as [self1 [s|e]]; [|done].
    destruct (Counter.calls self1 _ gaps) as [[[c k] adm']|e] eqn:E';
      [|done].
    injection E as <- <- <-. cbn. f_equal. by eapply IH.
Qed.

Lemma history_stays_within_quota_witness :
  exists self' clock' admitted,
    Counter.calls (Counter.mk 10 2 []) 0 [1; 1; 1; 1; 1]
    = Return (self', clock', admitted)
    /\ Z.of_nat (length (Counter.hist self')) <= 2
    /\ length admitted = length [1; 1; 1; 1; 1].
Proof.
  apply (history_stays_within_quota (Counter.mk 10 2 []) 0 [1; 1; 1; 1; 1]).
  - cbn. lia.
  - cbn. lia.
  - reflexivity.
  - repeat constructor.
Defined.

(** With a negative period no timestamp is recent enough to stay: the
    loop that drops the old timestamps empties the history, the timestamp
    just read included, and reads the newest entry of the empty list.
    [inc] ends with [IndexError] and leaves an empty history. *)
Theorem inc_fails_on_negative_period self now :
  Counter.period self < 0 ->
  Forall (fun x => x <= now) (Counter.hist self) ->
  Counter.inc self now
  = (Counter.mk (Counter.period self) (Counter.maxhits self) [],
     Raise IndexError).
Proof.
  intros Hp Hf. unfold Counter.inc. cbv zeta.
  assert (Hd : Counter.timedelta (Counter.period self) < 0)
    by (unfold Counter.timedelta; lia).
  assert (E : Counter.prune (Counter.timedelta (Counter.period self))
                (Counter.hist self ++ [now]) = Raise IndexError).
  { induction Hf as [|a h Ha _ IH].
    - cbn. by replace (_ <? now - now) with true by (symmetry; apply Z.ltb_lt; lia).
    - change ((a :: h) ++ [now]) with (a :: (h ++ [now])).
      cbn [Counter.prune]. rewrite last_cons, last_snoc.
      by replace (_ <? now - a) with true by (symmetry; apply Z.ltb_lt; lia). }
  by rewrite E.
Qed.

Lemma inc_fails_on_negative_period_witness :
  Counter.inc (Counter.mk (-1) 2 [0; 250000000]) 290000000
  = (Counter.mk (-1) 2 [], Raise IndexError).
Proof.
  apply (inc_fails_on_negative_period
           (Counter.mk (-1) 2 [0; 250000000]) 290000000).
  - cbn. lia.
  - repeat (apply List.Forall_cons; [lia|]). apply List.Forall_nil.
Defined.

End CounterPacing.

(** * The quota on the instants at which calls return *)

Section CounterQuota.

Implicit Types (h k gaps past hrev : list Z) (d x y now clock g : Z).
Implicit Types (self : Counter.t) (m : nat).

Lemma tracked_empty d m clock : tracked d m [] [] clock.
Proof. repeat split; intros; done. Qed.

(** One call keeps [paced] and [tracked]. *)
Lemma inc_tracked self clock g past :
  0 <= Counter.period self -> 1 <= Counter.maxhits self -> 0 < g ->
  paced self clock ->
  tracked (Counter.timedelta (Counter.period self))
    (Z.to_nat (Counter.maxhits self)) (reverse (Counter.hist self))
    past clock ->
  exists self' s,
    Counter.inc self (clock + g) = (self', Return s)
    /\ Counter.period self' = Counter.period self
    /\ Counter.maxhits self' = Counter.maxhits self
    /\ paced self' (clock + g + Counter.slept s)
    /\ tracked (Counter.timedelta (Counter.period self))
         (Z.to_nat (Counter.maxhits self)) (reverse (Counter.hist self'))
         ((clock + g + Counter.slept s) :: past)
         (clock + g + Counter.slept s).
Proof.
  intros Hp Hm Hg Hpaced (J0 & J7 & J2 & J3 & J5).
  set (d := Counter.timedelta (Counter.period self)) in *.
  set (m := Z.to_nat (Counter.maxhits self)) in *.
  set (now := clock + g).
  destruct (inc_paced self clock g Hp Hm Hg Hpaced)
    as (self' & s & Ei & Hp' & Hm' & Hpaced').
  destruct (inc_returns self now Hp)
    as (h & x & s0 & Eh & Hh & Hl & Hd & Ei0 & Es).
  fold now in Ei. rewrite Ei0 in Ei. injection Ei as <- <-.
  fold now in Hpaced'. fold d in Eh, Hd, Es.
  exists (Counter.mk (Counter.period self) (Counter.maxhits self) h), s0.
  split; [exact Ei0|]. do 3 (split; [done|]).
  cbn [Counter.hist].
  destruct (prune_split _ _ _ _ Eh) as (k & Hk & Hpruned).
  assert (Hrev : now :: reverse (Counter.hist self)
                 = reverse h ++ reverse k).
  { rewrite <- reverse_app, <- Hk. by rewrite reverse_snoc. }
  set (hr := reverse (Counter.hist self)) in *.
  set (hr' := reverse h) in *.
  destruct Hpaced as ((Hsorted & Hle) & _ & _).
  destruct Hpaced' as (_ & Hlen' & _). cbn [Counter.hist Counter.maxhits] in Hlen'.
  assert (Hlenr : length hr' = length h) by apply length_reverse.
  assert (Hpos : (0 < length h)%nat) by (destruct h; [done|cbn; lia]).
  assert (Hs0 : 0 <= Counter.slept s0).
  { rewrite Es. destruct (_ <=? _); cbn; lia. }
  set (r := now + Counter.slept s0).
  (* a timestamp that is kept is at the same place of both lists *)
  assert (Hkept : forall t x1, hr' !! t = Some x1 ->
                    (now :: hr) !! t = Some x1).
  { intros t x1 Ht. rewrite Hrev. rewrite lookup_app_l; [done|].
    by eapply lookup_lt_Some. }
  (* a timestamp that is gone was more than [d] before [now] *)
  assert (Hgone : forall t x1, (length hr' <= t)%nat ->
                    (now :: hr) !! t = Some x1 -> d < now - x1).
  { intros t x1 Ht Hx1. rewrite Hrev in Hx1.
    rewrite lookup_app_r in Hx1 by done.
    apply list_elem_of_lookup_2 in Hx1. rewrite elem_of_reverse in Hx1.
    rewrite Forall_forall in Hpruned. by apply Hpruned. }
  assert (Hold : forall x1, x1 ∈ hr -> x1 <= clock).
  { intros x1 Hx1. unfold hr in Hx1. rewrite elem_of_reverse in Hx1.
    rewrite Forall_forall in Hle. by apply Hle. }
  assert (Hhead : head hr' = Some now).
  { destruct hr' as [|z hr1] eqn:E; [cbn in Hlenr; lia|].
    cbn in Hrev. by injection Hrev as ->. }
  assert (J2' : forall t x1 a, hr' !! t = Some x1 ->
                  (r :: past) !! S t = Some a -> a < x1).
  { intros t x1 a Ht Ha. cbn in Ha. apply Hkept in Ht.
    destruct t as [|t].
    - injection Ht as <-.
      eapply Forall_lookup_1 in J0; [|exact Ha]. cbn in J0. lia.
    - cbn in Ht. by eapply J2. }
  assert (J3' : forall s a x0, (length hr' < s)%nat ->
                  (r :: past) !! s = Some a -> head hr' = Some x0 ->
                  a + d < x0).
  { intros s a x0 Hs Ha Hx0. rewrite Hhead in Hx0. injection Hx0 as <-.
    destruct s as [|[|s]]; [lia|lia|]. cbn in Ha.
    destruct (hr !! s) as [x2|] eqn:Hx2.
    - assert (d < now - x2).
      { apply (Hgone (S s)); [lia|done]. }
      assert (a < x2) by (by eapply J2). lia.
    - apply lookup_ge_None in Hx2.
      destruct hr as [|x0 hr0] eqn:Ehr.
      + rewrite (J7 eq_refl) in Ha. done.
      + assert (a + d < x0).
        { eapply (J3 (S s)); [cbn in *; lia|done|done]. }
        assert (x0 <= clock) by (apply Hold; left).
        lia. }
  repeat split.
  - constructor; [lia|]. eapply Forall_impl; [exact J0|].
    cbn. intros a Ha. unfold r, now. lia.
  - intros Hnil. fold hr' in Hnil. rewrite Hnil in Hlenr. cbn in Hlenr. lia.
  - exact J2'.
  - exact J3'.
  - intros s a b Hb Ha. destruct s as [|s].
    + injection Hb as <-. cbn [plus] in Ha.
      destruct (decide (length h = m)) as [Hfull|Hnot].
      * (* the counter is full: the call slept until its oldest
           timestamp was a period ago *)
        assert (Er : r = x + d).
        { unfold r. rewrite Es.
          replace (Counter.maxhits self <=? Z.of_nat (length h)) with true
            by (symmetry; apply Z.leb_le; lia).
          cbn. lia. }
        assert (Hx : hr' !! (length h - 1)%nat = Some x).
        { destruct h as [|x' t]; [done|]. injection Hh as ->.
          unfold hr'. rewrite reverse_cons. cbn [length].
          replace (S (length t) - 1)%nat with (length (reverse t))
            by (rewrite length_reverse; lia).
          by rewrite list_lookup_middle. }
        assert (a < x).
        { eapply J2'; [exact Hx|].
          replace (S (length h - 1))%nat with m by lia. exact Ha. }
        lia.
      * assert (a + d < now).
        { eapply (J3' m); [lia|exact Ha|exact Hhead]. }
        unfold r. lia.
    + cbn in Hb. change (S s + m)%nat with (S (s + m)) in Ha. cbn in Ha.
      by eapply J5.
Qed.

(** A run of calls keeps the instants of return spaced. *)
Lemma calls_tracked gaps : forall self clock past,
  0 <= Counter.period self -> 1 <= Counter.maxhits self ->
  Forall (Z.lt 0) gaps ->
  paced self clock ->
  tracked (Counter.timedelta (Counter.period self))
    (Z.to_nat (Counter.maxhits self)) (reverse (Counter.hist self))
    past clock ->
  exists self' clock' admitted,
    Counter.calls self clock gaps = Return (self', clock', admitted)
    /\ spaced (Counter.timedelta (Counter.period self))
         (Z.to_nat (Counter.maxhits self)) (reverse past ++ admitted).
Proof.
  induction gaps as [|g gaps IH]; intros self clock past Hp Hm Hg Hpaced Ht.
  - exists self, clock, []. split; [done|]. rewrite app_nil_r.
    destruct Ht as (_ & _ & _ & _ & J5).
    intros i a b Ha Hb.
    apply reverse_lookup_Some in Ha as [Ha Hi].
    apply reverse_lookup_Some in Hb as [Hb Hj].
    eapply J5; [exact Hb|].
    replace (length past - S (i + Z.to_nat (Counter.maxhits self))
             + Z.to_nat (Counter.maxhits self))%nat
      with (length past - S i)%nat by lia.
    exact Ha.
  - apply Forall_cons in Hg as [Hg0 Hg].
    destruct (inc_tracked self clock g past Hp Hm Hg0 Hpaced Ht)
      as (self1 & s & Ei & Hp1 & Hm1 & Hpaced1 & Ht1).
    cbn [Counter.calls]. rewrite Ei.
    rewrite <- Hp1, <- Hm1 in Ht1.
    destruct (IH self1 (clock + g + Counter.slept s)
                ((clock + g + Counter.slept s) :: past))
      as (self' & clock' & adm & E & Hsp); [lia|lia|done|done|done|].
    rewrite E. do 3 eexists. split; [done|].
    rewrite Hp1, Hm1 in Hsp.
    by rewrite reverse_cons, <- app_assoc in Hsp.
Qed.

(** When the clock is read strictly later than the previous call
    returned, and the quota is at least one, calls on a counter that
    starts with an empty history all return, and any two returns that
    are [maxhits] calls apart are more than a period apart: no interval
    of the length of the period sees more than [maxhits] calls let
    through. *)
Theorem calls_are_let_through_within_quota self clock gaps :
  0 <= Counter.period self ->
  1 <= Counter.maxhits self ->
  Counter.hist self = [] ->
  Forall (Z.lt 0) gaps ->
  exists self' clock' admitted,
    Counter.calls self clock gaps = Return (self', clock', admitted)
    /\ spaced (Counter.timedelta (Counter.period self))
         (Z.to_nat (Counter.maxhits self)) admitted.
Proof.
  intros Hp Hm Hnil Hg.
  assert (Hpaced : paced self clock).
  { unfold paced. rewrite Hnil. cbn. split; [split; constructor|].
    split; [lia|]. lia. }
  destruct (calls_tracked gaps self clock [] Hp Hm Hg Hpaced)
    as (self' & clock' & adm & E & Hsp).
  { rewrite Hnil. apply tracked_empty. }
  by exists self', clock', adm.
Qed.

Lemma calls_are_let_through_within_quota_witness :
  exists self' clock' admitted,
    Counter.calls (Counter.mk 10 2 []) 0 [1; 1; 1; 1; 1]
    = Return (self', clock', admitted)
    /\ spaced (Counter.timedelta 10) (Z.to_nat 2) admitted.
Proof.
  apply (calls_are_let_through_within_quota (Counter.mk 10 2 []) 0
           [1; 1; 1; 1; 1]).
  - cbn. lia.
  - cbn. lia.
  - reflexivity.
  - repeat constructor.
Defined.

End CounterQuota.

(** * More about the requests of an account *)

Section RequestFacts.

Implicit Types (w : Account.world) (net : network) (p q : dictref).
Implicit Types (suffix : string) (r : envelope) (d : gmap string value).
Implicit Types (rqs : list request).

Lemma touches_only_refl p w : touches_only p w w [].
Proof. repeat split. by rewrite app_nil_r. Qed.

Lemma touches_only_trans p w w1 w2 rqs1 rqs2 :
  touches_only p w w1 rqs1 -> touches_only p w1 w2 rqs2 ->
  touches_only p w w2 (rqs1 ++ rqs2).
Proof.
  intros ([He1 Hh1] & Hs1 & Hd1) ([He2 Hh2] & Hs2 & Hd2).
  split; [split; congruence|]. split.
  - by rewrite Hs2, Hs1, app_assoc.
  - intros q Hq. by rewrite Hd2, Hd1.
Qed.

Lemma counter_inc_touches p w :
  touches_only p w (snd (Account.counter_inc w)) [].
Proof.
  unfold Account.counter_inc.
  destruct (Account.counter (Account.this w)) as [c|];
    [|apply touches_only_refl].
  destruct (Counter.inc c _) as [c' [s|e]]; cbn;
    repeat split; by rewrite ?app_nil_r.
Qed.

Lemma call_touches p net v suffix body p' w :
  touches_only p w (snd (Account.call net v suffix body p' w))
    [Account.request_for (Account.this w) v suffix
       (dicts (Account.outside w) p') body].
Proof.
  unfold Account.call, Account.send.
  destruct (serve net _); cbn; repeat split.
Qed.

Lemma ans_check_touches p ans w :
  touches_only p w (snd (Account.ans_check ans w)) [].
Proof.
  unfold Account.ans_check.
  destruct (Account.ans_check_try ans) as [res|[]]; cbn;
    repeat split; by rewrite ?app_nil_r.
Qed.

Lemma turn_page_touches p w :
  touches_only p w (snd (Account.turn_page p w)) [].
Proof.
  unfold Account.turn_page.
  destruct (Account.next_page _) as [d|e]; cbn [snd];
    [|apply touches_only_refl].
  split; [done|]. split; [by rewrite app_nil_r|].
  intros q Hq.
  exact (fn_lookup_insert_ne (dicts (Account.outside w)) p q d
           (not_eq_sym Hq)).
Qed.

Lemma sends_only_same_account w w' v suffix body rqs :
  same_account w w' ->
  sends_only (Account.this w') v suffix body rqs ->
  sends_only (Account.this w) v suffix body rqs.
Proof.
  intros [He Hh]. unfold sends_only. by rewrite He, Hh.
Qed.

(** Whatever the provider answers and however it ends, a [get] sends
    nothing but GET requests to the endpoint followed by [suffix], with
    the headers of the account and no body, at most one per level of
    nesting; it leaves the endpoint and the headers as they were and
    changes no mapping other than the one it was given. *)
Theorem get_sends_only_its_gets net suffix p depth : forall w,
  exists rqs,
    touches_only p w (snd (Account.get net depth suffix p w)) rqs
    /\ sends_only (Account.this w) GET suffix None rqs
    /\ (length rqs <= depth)%nat.
Proof.
  induction depth as [|depth IH]; intros w.
  - exists []. split; [apply touches_only_refl|]. split; [constructor|done].
  - cbn [Account.get]. unfold bind.
    pose proof (counter_inc_touches p w) as H0.
    destruct (Account.counter_inc w) as [[[]|e0] w0]; cbn [snd] in *.
    2: { exists []. split; [done|]. split; [constructor|cbn; lia]. }
    pose proof (call_touches p net GET suffix None p w0) as H1.
    set (rq := Account.request_for (Account.this w0) GET suffix
                 (dicts (Account.outside w0) p) None) in *.
    assert (Hrq : sends_only (Account.this w) GET suffix None [rq]).
    { apply (sends_only_same_account w w0); [by destruct H0|].
      repeat constructor. }
    pose proof (touches_only_trans _ _ _ _ _ _ H0 H1) as H01.
    cbn [app] in H01.
    destruct (Account.call net GET suffix None p w0) as [[ans|e1] w1];
      cbn [snd] in *.
    2: { exists [rq]. split; [done|]. split; [done|cbn; lia]. }
    pose proof (ans_check_touches p ans w1) as H2.
    pose proof (touches_only_trans _ _ _ _ _ _ H01 H2) as H012.
    cbn [app] in H012.
    destruct (Account.ans_check ans w1) as [[[res|]|e2] w2]; cbn [snd] in *.
    2, 3: exists [rq]; split; [done|]; split; [done|cbn; lia].
    destruct (Account.info res) as [i|].
    2: { exists [rq]. split; [done|]. split; [done|cbn; lia]. }
    destruct (page i <? total_pages i).
    2: { exists [rq]. split; [done|]. split; [done|cbn; lia]. }
    pose proof (turn_page_touches p w2) as H3.
    pose proof (touches_only_trans _ _ _ _ _ _ H012 H3) as H0123.
    cbn [app] in H0123.
    destruct (Account.turn_page p w2) as [[[]|e3] w3]; cbn [snd] in *.
    2: { exists [rq]. split; [done|]. split; [done|cbn; lia]. }
    destruct (IH w3) as (rqs & H4 & Hrqs & Hlen).
    pose proof (touches_only_trans _ _ _ _ _ _ H0123 H4) as Hall.
    assert (Hrqs' : sends_only (Account.this w) GET suffix None rqs).
    { apply (sends_only_same_account w w3); [by destruct H0123|done]. }
    destruct (Account.get net depth suffix p w3) as [[more|e4] w4];
      cbn [snd] in *.
    + unfold lift. exists ([rq] ++ rqs). split; [done|].
      split; [by apply Forall_app|]. cbn. lia.
    + exists ([rq] ++ rqs). split; [done|].
      split; [by apply Forall_app|]. cbn. lia.
Qed.

(** A response that reports success and announces no further page (no
    [result_info], or a page that is not before the last) is all a [get]
    asks for: it returns the [result] of that response after this one
    request, and leaves every mapping and the output as they were. *)
Theorem get_returns_a_single_page net depth suffix p w r c :
  ready w ->
  serve net (Account.request_for (Account.this w) GET suffix
               (dicts (Account.outside w) p) None)
  = Some (body_json r) ->
  success r = Some true -> result r = Some c ->
  (result_info r = None
   \/ exists i, result_info r = Some i /\ total_pages i <= page i) ->
  exists w',
    Account.get net (S depth) suffix p w = (Return c, w')
    /\ sent (Account.outside w')
       = sent (Account.outside w)
         ++ [Account.request_for (Account.this w) GET suffix
               (dicts (Account.outside w) p) None]
    /\ dicts (Account.outside w') = dicts (Account.outside w)
    /\ stdout (Account.outside w') = stdout (Account.outside w).
Proof.
  intros Hr Hs Hok Hc Hlast.
  destruct (request_step net GET suffix None p w _ Hr Hs)
    as (w0 & w1 & E0 & E1 & _ & _ & Hdicts & Hout & Hsent).
  exists w1. split; [|done].
  cbn [Account.get]. unfold bind. rewrite E0, E1.
  rewrite (ans_check_success r c w1 Hok Hc).
  cbn [Account.info Account.content].
  destruct Hlast as [-> | (i & -> & Hi)]; [done|].
  by replace (page i <? total_pages i) with false
    by (symmetry; apply Z.ltb_ge; lia).
Qed.

Lemma get_returns_a_single_page_witness :
  let r := {| success := Some true;
              result := Some (VDict [("id", VStr "372e")]);
              errors := None;
              result_info := None |} in
  let a := {| Account.acc_headers := [];
              Account.endpoint := "https://api.cloudflare.com/client/v4";
              Account.maxhits := 1200;
              Account.period := 300;
              Account.counter := Some (Counter.mk 300 1200 []);
              Account.zones := None |} in
  let w := {| Account.this := a; Account.outside := env0 |} in
  exists w',
    Account.get (always (body_json r)) 1 "/zones/372e" get_p w
    = (Return (VDict [("id", VStr "372e")]), w')
    /\ sent (Account.outside w')
       = sent (Account.outside w)
         ++ [Account.request_for a GET "/zones/372e" ∅ None]
    /\ dicts (Account.outside w') = dicts (Account.outside w)
    /\ stdout (Account.outside w') = stdout (Account.outside w).
Proof.
  intros r a w.
  apply (get_returns_a_single_page (always (body_json r)) 0 "/zones/372e"
           get_p w r (VDict [("id", VStr "372e")])).
  - exists (Counter.mk 300 1200 []). split; [reflexivity|]. cbn. lia.
  - reflexivity.
  - reflexivity.
  - reflexivity.
  - left. reflexivity.
Defined.

(** What [post] and [put] share. *)
Lemma send_body_frame net v suffix body p w :
  (forall x, fst (Account.send_body net v suffix body p w) = Return x ->
             x = VStr "content")
  /\ exists rqs,
       touches_only p w (snd (Account.send_body net v suffix body p w)) rqs
       /\ sends_only (Account.this w) v suffix (Some body) rqs
       /\ (length rqs <= 1)%nat
       /\ dicts (Account.outside
                   (snd (Account.send_body net v suffix body p w)))
          = dicts (Account.outside w).
Proof.
  unfold Account.send_body, bind.
  pose proof (counter_inc_touches p w) as H0.
  assert (D0 : dicts (Account.outside (snd (Account.counter_inc w)))
               = dicts (Account.outside w)).
  { unfold Account.counter_inc.
    destruct (Account.counter (Account.this w)) as [c|]; [|done].
    by destruct (Counter.inc c _) as [c' [s|e]]. }
  destruct (Account.counter_inc w) as [[[]|e0] w0]; cbn [snd fst] in *.
  2: { split; [done|]. exists []. split; [exact H0|].
       split; [constructor|]. split; [cbn; lia|exact D0]. }
  pose proof (call_touches p net v suffix (Some body) p w0) as H1.
  assert (D1 : dicts (Account.outside
                        (snd (Account.call net v suffix (Some body) p w0)))
               = dicts (Account.outside w0)).
  { unfold Account.call, Account.send. by destruct (serve net _). }
  set (rq := Account.request_for (Account.this w0) v suffix
               (dicts (Account.outside w0) p) (Some body)) in *.
  assert (Hrq : sends_only (Account.this w) v suffix (Some body) [rq]).
  { apply (sends_only_same_account w w0); [by destruct H0|].
    repeat constructor. }
  pose proof (touches_only_trans _ _ _ _ _ _ H0 H1) as H01.
  cbn [app] in H01.
  destruct (Account.call net v suffix (Some body) p w0) as [[ans|e1] w1];
    cbn [snd fst] in *.
  2: { split; [done|]. exists [rq]. split; [exact H01|].
       split; [exact Hrq|]. split; [cbn; lia|congruence]. }
  pose proof (ans_check_touches p ans w1) as H2.
  assert (D2 : dicts (Account.outside (snd (Account.ans_check ans w1)))
               = dicts (Account.outside w1)).
  { unfold Account.ans_check.
    by destruct (Account.ans_check_try ans) as [res|[]]. }
  pose proof (touches_only_trans _ _ _ _ _ _ H01 H2) as H012.
  cbn [app] in H012.
  assert (Hend : exists rqs,
            touches_only p w (snd (Account.ans_check ans w1)) rqs
            /\ sends_only (Account.this w) v suffix (Some body) rqs
            /\ (length rqs <= 1)%nat
            /\ dicts (Account.outside (snd (Account.ans_check ans w1)))
               = dicts (Account.outside w)).
  { exists [rq]. split; [exact H012|]. split; [exact Hrq|].
    split; [cbn; lia|congruence]. }
  destruct (Account.ans_check ans w1) as [[res|e2] w2]; cbn [snd fst] in *.
  2: { split; [done|]. exact Hend. }
  unfold lift, ret, Account.unpack2, Account.checked_keys.
  destruct res as [res|]; cbn [fst snd].
  - destruct (Account.info res); cbn [fst snd].
    + split; [by intros x [= <-]|]. exact Hend.
    + split; [done|]. exact Hend.
  - split; [done|]. exact Hend.
Qed.

(** [post] and [put] never return anything but the string
    ["content"]; they send at most one request, with their verb, the
    body they were given and the headers of the account, and they change
    no mapping at all. *)
Theorem post_and_put_return_only_a_key net suffix body p w :
  ((forall x, fst (Account.post net suffix body p w) = Return x ->
              x = VStr "content")
   /\ exists rqs,
        touches_only p w (snd (Account.post net suffix body p w)) rqs
        /\ sends_only (Account.this w) POST suffix (Some body) rqs
        /\ (length rqs <= 1)%nat
        /\ dicts (Account.outside (snd (Account.post net suffix body p w)))
           = dicts (Account.outside w))
  /\ ((forall x, fst (Account.put net suffix body p w) = Return x ->
                 x = VStr "content")
      /\ exists rqs,
           touches_only p w (snd (Account.put net suffix body p w)) rqs
           /\ sends_only (Account.this w) PUT suffix (Some body) rqs
           /\ (length rqs <= 1)%nat
           /\ dicts (Account.outside (snd (Account.put net suffix body p w)))
              = dicts (Account.outside w)).
Proof. split; apply send_body_frame. Qed.

(** Against a provider every response of which announces a further
    page, a [get] whose mapping has no [page], or an integer one, never
    returns: it goes on until the interpreter allows no further nested
    call and ends with [RecursionError], having sent one request per
    level. *)
Theorem get_follows_pages_without_end net suffix p : forall depth w,
  endless net ->
  ready w ->
  (dicts (Account.outside w) p !! "page" = None
   \/ exists k, dicts (Account.outside w) p !! "page" = Some (VInt k)) ->
  exists w',
    Account.get net depth suffix p w = (Raise RecursionError, w')
    /\ length (sent (Account.outside w'))
       = (length (sent (Account.outside w)) + depth)%nat.
Proof.
  induction depth as [|depth IH]; intros w Hnet Hr Hpage.
  - exists w. split; [done|]. lia.
  - destruct (Hnet (Account.request_for (Account.this w) GET suffix
                      (dicts (Account.outside w) p) None))
      as (r & c & i & Hs & Hok & Hc & Hi & Hlt).
    assert (Hn : exists k,
               Account.next_page (dicts (Account.outside w) p)
               = Return (<["page" := VInt k]> (dicts (Account.outside w) p))).
    { unfold Account.next_page.
      destruct Hpage as [-> | [k ->]]; [by exists 2|]. by exists (k + 1). }
    destruct Hn as [k Hn].
    destruct (request_step net GET suffix None p w _ Hr Hs)
      as (w0 & w1 & E0 & E1 & Hr1 & _ & Hdicts & _ & Hsent).
    cbn [Account.get]. unfold bind. rewrite E0, E1.
    rewrite (ans_check_success r c w1 Hok Hc).
    cbn [Account.info Account.content]. rewrite Hi.
    apply Z.ltb_lt in Hlt. rewrite Hlt.
    unfold Account.turn_page. rewrite Hdicts, Hn.
    set (w2 := Account.store p _ w1).
    destruct (IH w2 Hnet) as (w' & E & Hlen).
    { destruct Hr1 as (c1 & ? & ?). by exists c1. }
    { right. exists k. cbn. rewrite fn_lookup_insert.
      apply lookup_insert_eq. }
    rewrite E. exists w'. split; [done|]. rewrite Hlen.
    change (sent (Account.outside w2)) with (sent (Account.outside w1)).
    rewrite Hsent, length_app. cbn. lia.
Qed.

Lemma get_follows_pages_without_end_witness :
  let more := body_json
                {| success := Some true;
                   result := Some (VList [VInt 1]);
                   errors := None;
                   result_info := Some {| page := 1; total_pages := 2 |} |} in
  let a := {| Account.acc_headers := [];
              Account.endpoint := "https://api.cloudflare.com/client/v4";
              Account.maxhits := 1200;
              Account.period := 300;
              Account.counter := Some (Counter.mk 300 1200 []);
              Account.zones := None |} in
  let w := {| Account.this := a; Account.outside := env0 |} in
  exists w',
    Account.get (always more) 5 "/zones" get_p w = (Raise RecursionError, w')
    /\ length (sent (Account.outside w'))
       = (length (sent (Account.outside w)) + 5)%nat.
Proof.
  intros more a w.
  apply (get_follows_pages_without_end (always more) "/zones" get_p 5 w).
  - intros rq. do 3 eexists. split; [reflexivity|].
    do 3 (split; [reflexivity|]). cbn. lia.
  - exists (Counter.mk 300 1200 []). split; [reflexivity|]. cbn. lia.
  - left. reflexivity.
Defined.

(** When a further page is announced and the mapping holds a [page]
    that is not an integer (a string, say), [get] fails with
    [TypeError] on [p["page"] += 1], after its first request and without
    changing the mapping. *)
Theorem get_fails_on_a_page_that_is_no_integer
  net depth suffix p w r c i v :
  ready w ->
  serve net (Account.request_for (Account.this w) GET suffix
               (dicts (Account.outside w) p) None)
  = Some (body_json r) ->
  success r = Some true -> result r = Some c ->
  result_info r = Some i -> page i < total_pages i ->
  dicts (Account.outside w) p !! "page" = Some v ->
  as_int v = None ->
  exists w',
    Account.get net (S depth) suffix p w = (Raise TypeError, w')
    /\ dicts (Account.outside w') = dicts (Account.outside w)
    /\ length (sent (Account.outside w'))
       = S (length (sent (Account.outside w))).
Proof.
  intros Hr Hs Hok Hc Hi Hlt Hv Hint.
  destruct (request_step net GET suffix None p w _ Hr Hs)
    as (w0 & w1 & E0 & E1 & _ & _ & Hdicts & _ & Hsent).
  exists w1. split; [|split; [done|]].
  - cbn [Account.get]. unfold bind. rewrite E0, E1.
    rewrite (ans_check_success r c w1 Hok Hc).
    cbn [Account.info Account.content]. rewrite Hi.
    apply Z.ltb_lt in Hlt. rewrite Hlt.
    unfold Account.turn_page, Account.next_page. rewrite Hdicts, Hv.
    assert (Hadd : iadd v (VInt 1) = Raise TypeError).
    { destruct v; try done. }
    by rewrite Hadd.
  - rewrite Hsent, length_app. cbn. lia.
Qed.

Lemma get_fails_on_a_page_that_is_no_integer_witness :
  let more := {| success := Some true;
                 result := Some (VList [VInt 1]);
                 errors := None;
                 result_info := Some {| page := 1; total_pages := 2 |} |} in
  let a := {| Account.acc_headers := [];
              Account.endpoint := "https://api.cloudflare.com/client/v4";
              Account.maxhits := 1200;
              Account.period := 300;
              Account.counter := Some (Counter.mk 300 1200 []);
              Account.zones := None |} in
  let o := {| clock := 0; sent := []; stdout := [];
              dicts := <[local 0 := {["page" := VStr "1"]}]> (fun _ => ∅) |} in
  let w := {| Account.this := a; Account.outside := o |} in
  exists w',
    Account.get (always (body_json more)) 1 "/zones" (local 0) w
    = (Raise TypeError, w')
    /\ dicts (Account.outside w') = dicts (Account.outside w)
    /\ length (sent (Account.outside w'))
       = S (length (sent (Account.outside w))).
Proof.
  intros more a o w.
  apply (get_fails_on_a_page_that_is_no_integer (always (body_json more)) 0
           "/zones" (local 0) w more (VList [VInt 1])
           {| page := 1; total_pages := 2 |} (VStr "1")).
  - exists (Counter.mk 300 1200 []). split; [reflexivity|]. cbn. lia.
  - reflexivity.
  - reflexivity.
  - reflexivity.
  - reflexivity.
  - cbn. lia.
  - reflexivity.
  - reflexivity.
Defined.

(** An exception of the statements under [try] other than [APIError]
    (a body that is not JSON, a key that is missing, an empty list of
    errors) is not handled: [get] ends with it, after one request and
    with nothing printed. *)
Theorem get_passes_on_other_exceptions net depth suffix p w ans e :
  ready w ->
  serve net (Account.request_for (Account.this w) GET suffix
               (dicts (Account.outside w) p) None) = Some ans ->
  Account.ans_check_try ans = Raise e ->
  (forall c m, e <> APIError c m) ->
  exists w',
    Account.get net (S depth) suffix p w = (Raise e, w')
    /\ stdout (Account.outside w') = stdout (Account.outside w)
    /\ length (sent (Account.outside w'))
       = S (length (sent (Account.outside w))).
Proof.
  intros Hr Hs He Hne.
  destruct (request_step net GET suffix None p w _ Hr Hs)
    as (w0 & w1 & E0 & E1 & _ & _ & _ & Hout & Hsent).
  exists w1. split; [|split; [done|]].
  - cbn [Account.get]. unfold bind. rewrite E0, E1.
    unfold Account.ans_check. rewrite He.
    destruct e; try done. exfalso. by eapply Hne.
  - rewrite Hsent, length_app. cbn. lia.
Qed.

Lemma get_passes_on_other_exceptions_witness :
  let a := {| Account.acc_headers := [];
              Account.endpoint := "https://api.cloudflare.com/client/v4";
              Account.maxhits := 1200;
              Account.period := 300;
              Account.counter := Some (Counter.mk 300 1200 []);
              Account.zones := None |} in
  let w := {| Account.this := a; Account.outside := env0 |} in
  exists w',
    Account.get (always body_other) 1 "/zones" get_p w
    = (Raise JSONDecodeError, w')
    /\ stdout (Account.outside w') = stdout (Account.outside w)
    /\ length (sent (Account.outside w'))
       = S (length (sent (Account.outside w))).
Proof.
  intros a w.
  apply (get_passes_on_other_exceptions (always body_other) 0 "/zones"
           get_p w body_other JSONDecodeError).
  - exists (Counter.mk 300 1200 []). split; [reflexivity|]. cbn. lia.
  - reflexivity.
  - reflexivity.
  - discriminate.
Defined.

(** A request that fails on the network, at the level of [call]. *)
Lemma failed_call net v suffix body p w :
  ready w ->
  serve net (Account.request_for (Account.this w) v suffix
               (dicts (Account.outside w) p) body) = None ->
  exists w0 w' c',
    Account.counter_inc w = (Return tt, w0)
    /\ Account.call net v suffix body p w0 = (Raise ConnectionError, w')
    /\ Account.counter (Account.this w') = Some c'
    /\ last (Counter.hist c') = Some (clock (Account.outside w)).
Proof.
  intros (c & Hc & Hp) Hs.
  destruct (inc_returns c (clock (Account.outside w)) Hp)
    as (h & x & s & _ & _ & Hl & _ & Ei & _).
  assert (E0 : Account.counter_inc w
               = (Return tt,
                  Account.advance (Counter.slept s)
                    (Account.set_counter
                       (Counter.mk (Counter.period c) (Counter.maxhits c) h)
                       w))).
  { unfold Account.counter_inc. by rewrite Hc, Ei. }
  set (w0 := Account.advance _ _) in E0.
  exists w0. unfold Account.call, Account.send.
  change (Account.request_for (Account.this w0) v suffix
            (dicts (Account.outside w0) p) body)
    with (Account.request_for (Account.this w) v suffix
            (dicts (Account.outside w) p) body).
  rewrite Hs. do 2 eexists. split; [exact E0|]. split; [reflexivity|].
  split; [reflexivity|]. exact Hl.
Qed.

(** A request is counted before it is sent: when the network is down,
    [get], [post] and [put] end with [ConnectionError], and the
    timestamp of the attempt is the newest entry of the history all the
    same. *)
Theorem failed_request_is_counted net depth suffix body p w :
  ready w ->
  (forall rq, serve net rq = None) ->
  let counted (r : outcome value * Account.world) :=
    fst r = Raise ConnectionError
    /\ exists c', Account.counter (Account.this (snd r)) = Some c'
                  /\ last (Counter.hist c')
                     = Some (clock (Account.outside w)) in
  counted (Account.get net (S depth) suffix p w)
  /\ counted (Account.post net suffix body p w)
  /\ counted (Account.put net suffix body p w).
Proof.
  intros Hr Hdown counted. unfold counted. split; [|split].
  - destruct (failed_call net GET suffix None p w Hr (Hdown _))
      as (w0 & w' & c' & E0 & E1 & Hc & Hl).
    cbn [Account.get]. unfold bind. rewrite E0, E1. cbn. eauto.
  - destruct (failed_call net POST suffix (Some body) p w Hr (Hdown _))
      as (w0 & w' & c' & E0 & E1 & Hc & Hl).
    unfold Account.post, Account.send_body, bind. rewrite E0, E1. cbn. eauto.
  - destruct (failed_call net PUT suffix (Some body) p w Hr (Hdown _))
      as (w0 & w' & c' & E0 & E1 & Hc & Hl).
    unfold Account.put, Account.send_body, bind. rewrite E0, E1. cbn. eauto.
Qed.

Lemma failed_request_is_counted_witness :
  let a := {| Account.acc_headers := [];
              Account.endpoint := "https://api.cloudflare.com/client/v4";
              Account.maxhits := 1200;
              Account.period := 300;
              Account.counter := Some (Counter.mk 300 1200 []);
              Account.zones := None |} in
  let w := {| Account.this := a; Account.outside := env0 |} in
  let down := {| serve := fun _ => None; elapsed := fun _ => 0 |} in
  let counted (r : outcome value * Account.world) :=
    fst r = Raise ConnectionError
    /\ exists c', Account.counter (Account.this (snd r)) = Some c'
                  /\ last (Counter.hist c')
                     = Some (clock (Account.outside w)) in
  counted (Account.get down 1 "/zones" (local 0) w)
  /\ counted (Account.post down "/zones" (VDict []) (local 0) w)
  /\ counted (Account.put down "/zones" (VDict []) (local 0) w).
Proof.
  intros a w down.
  apply (failed_request_is_counted down 0 "/zones" (VDict []) (local 0) w).
  - exists (Counter.mk 300 1200 []). split; [reflexivity|]. cbn. lia.
  - reflexivity.
Defined.

End RequestFacts.

(** * Building an account; zones and records *)

Section ZoneFacts.

Implicit Types (w : Account.world) (o : env) (net : network).
Implicit Types (pages : list (list value)) (ids : list (string * value)).

Lemma quota_bounds nb_wkr :
  1 <= nb_wkr -> nb_wkr < 2 ^ 1024 - 2 ^ 970 ->
  exists hits,
    Account.quota nb_wkr = Return hits
    /\ 0 <= hits
    /\ hits * nb_wkr <= 1200 < (hits + 1) * nb_wkr.
Proof.
  intros H1 H2. unfold Account.quota.
  destruct (Z.eqb_spec nb_wkr 0) as [|_]; [lia|].
  rewrite Z.abs_eq by lia.
  destruct (Z.leb_spec (2 ^ 1024 - 2 ^ 970) nb_wkr) as [|_]; [lia|].
  eexists. split; [reflexivity|].
  rewrite Z.quot_div_nonneg by lia.
  pose proof (Z.div_mod 1200 nb_wkr ltac:(lia)).
  pose proof (Z.mod_pos_bound 1200 nb_wkr ltac:(lia)).
  split; [apply Z.div_pos; lia|]. nia.
Qed.

Lemma make_zones_spec items ids :
  Forall2 (fun item idn =>
             getitem item "id" = Return (VStr idn.1)
             /\ getitem item "name" = Return idn.2) items ids ->
  Account.make_zones items = Return (map zone_of ids).
Proof.
  induction 1 as [|item idn items ids [Hid Hname] _ IH]; [done|].
  cbn [Account.make_zones]. rewrite Hid, Hname. cbn. by rewrite IH.
Qed.

(** The constructor with [count] and [store] both true, against a
    listing in pages. *)
Lemma init_store pages depth email key nb_wkr o ids :
  1 <= nb_wkr -> nb_wkr < 2 ^ 1024 - 2 ^ 970 ->
  dicts o list_zones_p = ∅ ->
  (1 <= length pages)%nat -> (length pages <= depth)%nat ->
  Forall2 (fun item idn =>
             getitem item "id" = Return (VStr idn.1)
             /\ getitem item "name" = Return idn.2) (concat pages) ids ->
  exists a o',
    Account.init (paged pages) depth email key true true nb_wkr o
    = (Return a, o')
    /\ Account.zones a = Some (map zone_of ids)
    /\ ready {| Account.this := a; Account.outside := o' |}
    /\ length (sent o') = (length (sent o) + length pages)%nat
    /\ dicts o' list_zones_p
       = match length pages with
         | 1%nat => ∅
         | n => {["page" := VInt (Z.of_nat n)]}
         end.
Proof.
  intros H1 H2 Hd Hlen Hdepth Hitems.
  destruct (quota_bounds nb_wkr H1 H2) as (hits & Eq & _).
  unfold Account.init. rewrite Eq. unfold Account.list_zones.
  set (w := Account.set_zones [] _).
  assert (Hr : ready w).
  { eexists. split; [reflexivity|]. cbn. lia. }
  destruct (get_paged pages "/zones" list_zones_p (length pages - 1) 0 depth
              w ∅ Hr Hd ltac:(by left) ltac:(lia) ltac:(lia))
    as (w' & E & (c & Hc & Hp) & _ & Hsent & Hd' & _).
  rewrite E. rewrite drop_0. cbn [iterate].
  rewrite (make_zones_spec _ _ Hitems).
  eexists _, _. split; [reflexivity|]. split; [reflexivity|].
  split; [by exists c|]. split.
  - rewrite Hsent. rewrite length_app. cbn [length].
    rewrite length_map, length_seq. change (sent (Account.outside w))
      with (sent o). lia.
  - rewrite Hd'. destruct (length pages) as [|[|n]]; [lia|done|].
    cbn [Nat.sub]. by rewrite insert_empty.
Qed.

(** The quota of 1200 requests per 300 s is shared among the workers:
    for [nb_wkr >= 1] workers the account gets the largest quota that,
    taken [nb_wkr] times, does not exceed 1200.  Without [store] the
    constructor sends nothing and leaves the world as it is, and the
    counter, when [count] asks for one, starts with an empty history. *)
Theorem init_shares_the_quota net depth email key count nb_wkr o :
  1 <= nb_wkr -> nb_wkr < 2 ^ 1024 - 2 ^ 970 ->
  exists a,
    Account.init net depth email key count false nb_wkr o = (Return a, o)
    /\ Account.period a = 300
    /\ 0 <= Account.maxhits a
    /\ Account.maxhits a * nb_wkr <= 1200 < (Account.maxhits a + 1) * nb_wkr
    /\ Account.counter a
       = (if count then Some (Counter.mk 300 (Account.maxhits a) [])
          else None)
    /\ Account.zones a = None.
Proof.
  intros H1 H2. destruct (quota_bounds nb_wkr H1 H2) as (hits & Eq & H0 & Hb).
  unfold Account.init. rewrite Eq.
  destruct count; (eexists; split; [reflexivity|done]).
Qed.

Lemma init_shares_the_quota_witness :
  exists a,
    Account.init (always body_other) 0 "user@example.com" "key" true false 7
      env0 = (Return a, env0)
    /\ Account.period a = 300
    /\ 0 <= Account.maxhits a
    /\ Account.maxhits a * 7 <= 1200 < (Account.maxhits a + 1) * 7
    /\ Account.counter a = Some (Counter.mk 300 (Account.maxhits a) [])
    /\ Account.zones a = None.
Proof.
  apply (init_shares_the_quota (always body_other) 0 "user@example.com"
           "key" true 7 env0).
  - lia.
  - reflexivity.
Defined.

(** No account comes out of the constructor when [nb_wkr] is 0 (the
    division fails) or when [store] is asked for without [count]: the
    listing of the zones needs the counter, and [AttributeError] ends
    the constructor before any request is sent. *)
Theorem init_fails_before_the_account_exists
  net depth email key count store nb_wkr o :
  Account.init net depth email key count store 0 o
  = (Raise ZeroDivisionError, o)
  /\ (nb_wkr <> 0 -> Z.abs nb_wkr < 2 ^ 1024 - 2 ^ 970 ->
      Account.init net (S depth) email key false true nb_wkr o
      = (Raise AttributeError, o)).
Proof.
  split; [done|]. intros H0 Hb. unfold Account.init, Account.quota.
  destruct (Z.eqb_spec nb_wkr 0) as [|_]; [done|].
  destruct (Z.leb_spec (2 ^ 1024 - 2 ^ 970) (Z.abs nb_wkr)) as [|_]; [lia|].
  unfold Account.list_zones. cbn [Account.get]. unfold bind.
  by rewrite counter_inc_unbound.
Qed.

Lemma init_fails_before_the_account_exists_witness :
  Account.init (paged [[]]) 2 "user@example.com" "key" true true 0 env0
  = (Raise ZeroDivisionError, env0)
  /\ (3 <> 0 -> Z.abs 3 < 2 ^ 1024 - 2 ^ 970 ->
      Account.init (paged [[]]) 3 "user@example.com" "key" false true 3 env0
      = (Raise AttributeError, env0)).
Proof.
  apply (init_fails_before_the_account_exists (paged [[]]) 2
           "user@example.com" "key" true true 3 env0).
Defined.

(** With [count] and [store] the constructor lists the zones, one
    request per page, and keeps for each entry a zone that holds its
    [id] and [name] only, with the prefix [/zones/<id>], in the order of
    the listing. *)
Theorem init_stores_the_zones pages depth email key nb_wkr o ids :
  1 <= nb_wkr -> nb_wkr < 2 ^ 1024 - 2 ^ 970 ->
  dicts o list_zones_p = ∅ ->
  (1 <= length pages)%nat -> (length pages <= depth)%nat ->
  Forall2 (fun item idn =>
             getitem item "id" = Return (VStr idn.1)
             /\ getitem item "name" = Return idn.2) (concat pages) ids ->
  exists a o',
    Account.init (paged pages) depth email key true true nb_wkr o
    = (Return a, o')
    /\ Account.zones a = Some (map zone_of ids)
    /\ length (sent o') = (length (sent o) + length pages)%nat.
Proof.
  intros H1 H2 Hd Hlen Hdepth Hitems.
  destruct (init_store pages depth email key nb_wkr o ids
              H1 H2 Hd Hlen Hdepth Hitems)
    as (a & o' & E & Hz & _ & Hsent & _).
  by exists a, o'.
Qed.

Lemma init_stores_the_zones_witness :
  let entry (id name : string) :=
    VDict [("id", VStr id); ("name", VStr name);
           ("status", VStr "active")] in
  let pages := [[entry "a1" "example.com"; entry "b2" "example.org"];
                [entry "c3" "example.net"]] in
  exists a o',
    Account.init (paged pages) 2 "user@example.com" "key" true true 1 env0
    = (Return a, o')
    /\ Account.zones a
       = Some [ {| Zone.zdata := VDict [("id", VStr "a1");
                                        ("name", VStr "example.com")];
                   Zone.prefix := "/zones/a1" |};
                {| Zone.zdata := VDict [("id", VStr "b2");
                                        ("name", VStr "example.org")];
                   Zone.prefix := "/zones/b2" |};
                {| Zone.zdata := VDict [("id", VStr "c3");
                                        ("name", VStr "example.net")];
                   Zone.prefix := "/zones/c3" |} ]
    /\ length (sent o') = (length (sent env0) + 2)%nat.
Proof.
  intros entry pages.
  apply (init_stores_the_zones pages 2 "user@example.com" "key" 1 env0
           [("a1", VStr "example.com"); ("b2", VStr "example.org");
            ("c3", VStr "example.net")]).
  - lia.
  - reflexivity.
  - reflexivity.
  - cbn. lia.
  - cbn. lia.
  - repeat (apply List.Forall2_cons; [split; reflexivity|]). apply List.Forall2_nil.
Defined.

(** The listing the constructor does with [store] goes through the
    default mapping of [list_zones], which keeps the number of the last
    page: on an account built over two pages or more, [list_zones()]
    called by the user returns the last page only. *)
Theorem list_zones_after_init_returns_the_last_page
  pages last_page depth email key nb_wkr o ids :
  1 <= nb_wkr -> nb_wkr < 2 ^ 1024 - 2 ^ 970 ->
  dicts o list_zones_p = ∅ ->
  (2 <= length pages)%nat -> (length pages <= depth)%nat ->
  last pages = Some last_page ->
  Forall2 (fun item idn =>
             getitem item "id" = Return (VStr idn.1)
             /\ getitem item "name" = Return idn.2) (concat pages) ids ->
  exists a o' w',
    Account.init (paged pages) depth email key true true nb_wkr o
    = (Return a, o')
    /\ length <$> Account.zones a = Some (length (concat pages))
    /\ Account.list_zones (paged pages) depth list_zones_p
         {| Account.this := a; Account.outside := o' |}
       = (Return (VList last_page), w')
    /\ length (sent (Account.outside w')) = S (length (sent o')).
Proof.
  intros H1 H2 Hd Hlen Hdepth Hlast Hitems.
  destruct (init_store pages depth email key nb_wkr o ids
              H1 H2 Hd ltac:(lia) Hdepth Hitems)
    as (a & o' & E & Hz & Hr & _ & Hd').
  destruct (length pages) as [|[|n]] eqn:En; [lia|lia|].
  set (w := {| Account.this := a; Account.outside := o' |}) in *.
  destruct (get_paged pages "/zones" list_zones_p 0 (S n) depth w _ Hr
              eq_refl)
    as (w' & E' & _ & _ & Hsent & _).
  { right. change (dicts (Account.outside w) list_zones_p)
      with (dicts o' list_zones_p).
    rewrite Hd'. apply lookup_singleton_eq. }
  { lia. }
  { lia. }
  subst w. exists a, o', w'. split; [exact E|]. split; [|split].
  - rewrite Hz. cbn. rewrite length_map. f_equal.
    symmetry. by eapply Forall2_length.
  - unfold Account.list_zones. rewrite E'. do 3 f_equal.
    apply last_Some in Hlast as [front ->].
    rewrite length_app in En. cbn in En.
    rewrite drop_app_length'; [by cbn; rewrite app_nil_r|lia].
  - rewrite Hsent. rewrite length_app. cbn. lia.
Qed.

Lemma list_zones_after_init_returns_the_last_page_witness :
  let entry (id name : string) :=
    VDict [("id", VStr id); ("name", VStr name)] in
  let pages := [[entry "a1" "example.com"; entry "b2" "example.org"];
                [entry "c3" "example.net"]] in
  exists a o' w',
    Account.init (paged pages) 2 "user@example.com" "key" true true 1 env0
    = (Return a, o')
    /\ length <$> Account.zones a = Some (length (concat pages))
    /\ Account.list_zones (paged pages) 2 list_zones_p
         {| Account.this := a; Account.outside := o' |}
       = (Return (VList [entry "c3" "example.net"]), w')
    /\ length (sent (Account.outside w')) = S (length (sent o')).
Proof.
  intros entry pages.
  apply (list_zones_after_init_returns_the_last_page pages
           [entry "c3" "example.net"] 2 "user@example.com" "key" 1 env0
           [("a1", VStr "example.com"); ("b2", VStr "example.org");
            ("c3", VStr "example.net")]).
  - lia.
  - reflexivity.
  - reflexivity.
  - cbn. lia.
  - cbn. lia.
  - reflexivity.
  - repeat (apply List.Forall2_cons; [split; reflexivity|]). apply List.Forall2_nil.
Defined.

(** [search_zone] makes a mapping of its own at every call: whatever
    the shared default mappings hold by then, it asks for the listing
    from the first page, with the name it was given, returns all the
    pages, and changes no mapping but its own. *)
Theorem search_zone_starts_from_the_first_page pages depth s fresh w :
  ready w ->
  (1 <= length pages)%nat -> (length pages <= depth)%nat ->
  exists w',
    Account.search_zone (paged pages) depth s fresh w
    = (Return (VList (concat pages)), w')
    /\ sent (Account.outside w')
       = sent (Account.outside w)
         ++ Account.request_for (Account.this w) GET "/zones"
              {["name" := VStr s]} None
            :: map (fun j =>
                      Account.request_for (Account.this w) GET "/zones"
                        (<["page" := VInt (Z.of_nat (S j))]>
                           {["name" := VStr s]}) None)
                 (seq 1 (length pages - 1))
    /\ forall q, q <> local fresh ->
         dicts (Account.outside w') q = dicts (Account.outside w) q.
Proof.
  intros Hr Hlen Hdepth.
  unfold Account.search_zone, Account.list_zones, bind.
  set (w0 := Account.store (local fresh) _ w).
  assert (Hr0 : ready w0).
  { destruct Hr as (c & Hc & Hp). by exists c. }
  destruct (get_paged pages "/zones" (local fresh) (length pages - 1) 0 depth
              w0 {["name" := VStr s]} Hr0)
    as (w' & E & _ & _ & Hsent & _ & Hd & _).
  { unfold w0. cbn. apply fn_lookup_insert. }
  { left. split; [|done]. by apply lookup_singleton_ne. }
  { lia. }
  { lia. }
  rewrite E. rewrite drop_0. exists w'. split; [done|]. split.
  - exact Hsent.
  - intros q Hq. rewrite (Hd q Hq). unfold w0. cbn.
    exact (fn_lookup_insert_ne (dicts (Account.outside w)) (local fresh) q _
             (not_eq_sym Hq)).
Qed.

Lemma search_zone_starts_from_the_first_page_witness :
  let pages := [[VInt 1; VInt 2]; [VInt 3]] in
  let a := {| Account.acc_headers := [];
              Account.endpoint := "https://api.cloudflare.com/client/v4";
              Account.maxhits := 1200;
              Account.period := 300;
              Account.counter := Some (Counter.mk 300 1200 []);
              Account.zones := None |} in
  let o := {| clock := 0; sent := []; stdout := [];
              dicts := <[list_zones_p := {["page" := VInt 2]}]> (fun _ => ∅) |}
  in
  let w := {| Account.this := a; Account.outside := o |} in
  exists w',
    Account.search_zone (paged pages) 2 "example.com" 0 w
    = (Return (VList (concat pages)), w')
    /\ sent (Account.outside w')
       = sent (Account.outside w)
         ++ Account.request_for (Account.this w) GET "/zones"
              {["name" := VStr "example.com"]} None
            :: map (fun j =>
                      Account.request_for (Account.this w) GET "/zones"
                        (<["page" := VInt (Z.of_nat (S j))]>
                           {["name" := VStr "example.com"]}) None)
                 (seq 1 (length pages - 1))
    /\ forall q, q <> local 0 ->
         dicts (Account.outside w') q = dicts (Account.outside w) q.
Proof.
  intros pages a o w.
  apply (search_zone_starts_from_the_first_page pages 2 "example.com" 0 w).
  - exists (Counter.mk 300 1200 []). split; [reflexivity|]. cbn. lia.
  - cbn. lia.
  - cbn. lia.
Defined.

(** [create_record] posts the four fields [type], [name], [content]
    and [ttl] to [<prefix>/dns_records]; [proxied] is not sent.  When
    the provider reports success the record exists, and the method ends
    with [ValueError] unless the response has a [result_info]. *)
Theorem create_record_fails_after_the_post
  net zo t n c ttl proxied w r res :
  let rq :=
    Account.request_for (Account.this w) POST
      (String.append (Zone.prefix zo) "/dns_records")
      (dicts (Account.outside w) post_p)
      (Some (VDict [("type", t); ("name", n); ("content", c);
                    ("ttl", ttl)])) in
  ready w ->
  serve net rq = Some (body_json r) ->
  success r = Some true -> result r = Some res ->
  fst (ZoneMethods.create_record net zo t n c ttl proxied w)
  = match result_info r with
    | Some _ => Return VNone
    | None => Raise ValueError
    end
  /\ sent (Account.outside
             (snd (ZoneMethods.create_record net zo t n c ttl proxied w)))
     = sent (Account.outside w) ++ [rq].
Proof.
  intros rq Hr Hs Hok Hc.
  destruct (request_step net POST _ _ post_p w _ Hr Hs)
    as (w0 & w1 & E0 & E1 & _ & _ & _ & _ & Hsent).
  unfold ZoneMethods.create_record, Account.post, Account.send_body, bind.
  rewrite E0, E1. rewrite (ans_check_success r res w1 Hok Hc).
  unfold lift, Account.unpack2, Account.checked_keys. cbn.
  destruct (result_info r); cbn; by rewrite Hsent.
Qed.

Lemma create_record_fails_after_the_post_witness :
  let r := {| success := Some true;
              result := Some (VDict [("id", VStr "372e")]);
              errors := None;
              result_info := None |} in
  let a := {| Account.acc_headers := [];
              Account.endpoint := "https://api.cloudflare.com/client/v4";
              Account.maxhits := 1200;
              Account.period := 300;
              Account.counter := Some (Counter.mk 300 1200 []);
              Account.zones := None |} in
  let w := {| Account.this := a; Account.outside := env0 |} in
  let zo := {| Zone.zdata := VDict [("id", VStr "a1")];
               Zone.prefix := "/zones/a1" |} in
  let create :=
    ZoneMethods.create_record (always (body_json r)) zo (VStr "A")
      (VStr "www") (VStr "192.0.2.1") (VInt 1) true w in
  fst create = Raise ValueError
  /\ sent (Account.outside (snd create))
     = sent (Account.outside w)
       ++ [Account.request_for a POST "/zones/a1/dns_records" ∅
             (Some (VDict [("type", VStr "A"); ("name", VStr "www");
                           ("content", VStr "192.0.2.1");
                           ("ttl", VInt 1)]))].
Proof.
  intros r a w zo create.
  apply (create_record_fails_after_the_post (always (body_json r)) zo
           (VStr "A") (VStr "www") (VStr "192.0.2.1") (VInt 1) true w r
           (VDict [("id", VStr "372e")])).
  - exists (Counter.mk 300 1200 []). split; [reflexivity|]. cbn. lia.
  - reflexivity.
  - reflexivity.
  - reflexivity.
Defined.

(** The listing of the records of a zone, the details of a zone and
    the details of a record go through the same default mapping of
    [get]: after [Zone.list_records] went through two pages or more,
    [Record.details] and [Zone.details] are asked with the number of the
    last page, and the data of the record is replaced by what comes back
    for that page. *)
Theorem list_records_leaks_into_details
  pages last_page depth zo zo' self w :
  ready w ->
  dicts (Account.outside w) get_p = ∅ ->
  (2 <= length pages)%nat -> (length pages <= depth)%nat ->
  last pages = Some last_page ->
  exists w1 w2,
    ZoneMethods.list_records (paged pages) depth zo w
    = (Return (VList (concat pages)), w1)
    /\ DNSRecord.details (paged pages) depth self w1
       = (Return {| DNSRecord.rdata := VList last_page;
                    DNSRecord.rprefix := DNSRecord.rprefix self |}, w2)
    /\ sent (Account.outside w2)
       = sent (Account.outside w1)
         ++ [Account.request_for (Account.this w) GET
               (DNSRecord.rprefix self)
               {["page" := VInt (Z.of_nat (length pages))]} None]
    /\ fst (ZoneMethods.details (paged pages) depth zo' w1)
       = Return (VList last_page).
Proof.
  intros Hr Hd Hlen Hdepth Hlast.
  destruct (length pages) as [|[|n]] eqn:En; [lia|lia|].
  destruct (get_paged pages (String.append (Zone.prefix zo) "/dns_records")
              get_p (S n) 0 depth w ∅ Hr Hd
              ltac:(by left) ltac:(lia) ltac:(lia))
    as (w1 & E1 & Hr1 & Hsame1 & _ & Hd1 & _).
  rewrite insert_empty in Hd1.
  assert (Hpage : (dicts (Account.outside w1) get_p !! "page" = None
                   /\ S n = 0%nat)
                  \/ dicts (Account.outside w1) get_p !! "page"
                     = Some (VInt (Z.of_nat (S (S n))))).
  { right. rewrite Hd1, En. apply lookup_singleton_eq. }
  destruct (get_paged pages (DNSRecord.rprefix self) get_p 0 (S n) depth w1 _
              Hr1 eq_refl Hpage ltac:(lia) ltac:(lia))
    as (w2 & E2 & _ & _ & Hsent2 & _).
  destruct (get_paged pages (Zone.prefix zo') get_p 0 (S n) depth w1 _
              Hr1 eq_refl Hpage ltac:(lia) ltac:(lia))
    as (w3 & E3 & _).
  assert (Hdrop : concat (drop (S n) pages) = last_page).
  { apply last_Some in Hlast as [front ->].
    rewrite length_app in En. cbn in En.
    rewrite drop_app_length'; [by cbn; rewrite app_nil_r|lia]. }
  rewrite Hdrop in E2, E3.
  exists w1, w2. split; [exact E1|]. split; [|split].
  - unfold DNSRecord.details, bind. by rewrite E2.
  - rewrite Hsent2. cbn [seq map]. rewrite Hd1, En.
    by rewrite (request_for_same_account w w1).
  - unfold ZoneMethods.details. by rewrite E3.
Qed.

Lemma list_records_leaks_into_details_witness :
  let pages := [[VInt 1; VInt 2]; [VInt 3; VInt 4]; [VInt 5]] in
  let a := {| Account.acc_headers := [];
              Account.endpoint := "https://api.cloudflare.com/client/v4";
              Account.maxhits := 1200;
              Account.period := 300;
              Account.counter := Some (Counter.mk 300 1200 []);
              Account.zones := None |} in
  let w := {| Account.this := a; Account.outside := env0 |} in
  let zo := {| Zone.zdata := VDict [("id", VStr "a1")];
               Zone.prefix := "/zones/a1" |} in
  let self := {| DNSRecord.rdata := VDict [("id", VStr "r7")];
                 DNSRecord.rprefix := "/zones/a1/dns_records/r7" |} in
  exists w1 w2,
    ZoneMethods.list_records (paged pages) 3 zo w
    = (Return (VList (concat pages)), w1)
    /\ DNSRecord.details (paged pages) 3 self w1
       = (Return {| DNSRecord.rdata := VList [VInt 5];
                    DNSRecord.rprefix := "/zones/a1/dns_records/r7" |}, w2)
    /\ sent (Account.outside w2)
       = sent (Account.outside w1)
         ++ [Account.request_for a GET "/zones/a1/dns_records/r7"
               {["page" := VInt 3]} None]
    /\ fst (ZoneMethods.details (paged pages) 3 zo w1)
       = Return (VList [VInt 5]).
Proof.
  intros pages a w zo self.
  apply (list_records_leaks_into_details pages [VInt 5] 3 zo zo self w).
  - exists (Counter.mk 300 1200 []). split; [reflexivity|]. cbn. lia.
  - reflexivity.
  - cbn. lia.
  - cbn. lia.
  - reflexivity.
Defined.

(** What [orange] and [grey] send when they send. *)
Lemma put_sends net suffix body w :
  ready w ->
  sent (Account.outside (snd (Account.put net suffix body put_p w)))
  = sent (Account.outside w)
    ++ [Account.request_for (Account.this w) PUT suffix
          (dicts (Account.outside w) put_p) (Some body)].
Proof.
  intros Hr. destruct (counter_inc_ready w Hr) as (c & dt & Ec & _).
  unfold Account.put, Account.send_body, bind. rewrite Ec.
  pose proof (call_touches put_p net PUT suffix (Some body) put_p
                (Account.advance dt (Account.set_counter c w)))
    as (_ & H1 & _).
  destruct (Account.call _ _ _ _ _ _) as [[ans|e] w1]; cbn [snd] in *;
    [|exact H1].
  pose proof (ans_check_touches put_p ans w1) as (_ & H2 & _).
  destruct (Account.ans_check ans w1) as [[res|e] w2]; cbn [snd] in *.
  - unfold lift. destruct (Account.unpack2 res); cbn;
      by rewrite H2, app_nil_r, H1.
  - by rewrite H2, app_nil_r, H1.
Qed.

(** Whatever the record holds, [orange] and [grey] never both act on
    it: one of the two leaves the world as it is.  On a record that is
    not proxiable both return [None] without a request, whether the
    record has a [proxied] or not. *)
Theorem orange_and_grey_never_both_act net self w :
  (snd (DNSRecord.orange net self w) = w
   \/ snd (DNSRecord.grey net self w) = w)
  /\ (forall a,
        getitem (DNSRecord.rdata self) "proxiable" = Return a ->
        truthy a = false ->
        DNSRecord.orange net self w = (Return VNone, w)
        /\ DNSRecord.grey net self w = (Return VNone, w)).
Proof.
  unfold DNSRecord.orange, DNSRecord.grey, DNSRecord.proxiable_and,
    bind, lift, ret.
  split.
  - destruct (getitem (DNSRecord.rdata self) "proxiable") as [a|e];
      [|by left].
    destruct (truthy a); [|by left].
    destruct (getitem (DNSRecord.rdata self) "proxied") as [b|e];
      [|by left].
    destruct (truthy b); cbn; [by left|by right].
  - intros a -> ->. done.
Qed.

Lemma orange_and_grey_never_both_act_witness :
  let self := {| DNSRecord.rdata := VDict [("proxiable", VBool false)];
                 DNSRecord.rprefix := "/zones/a1/dns_records/r7" |} in
  let w := {| Account.this :=
                {| Account.acc_headers := [];
                   Account.endpoint := "https://api.cloudflare.com/client/v4";
                   Account.maxhits := 1200;
                   Account.period := 300;
                   Account.counter := Some (Counter.mk 300 1200 []);
                   Account.zones := None |};
              Account.outside := env0 |} in
  DNSRecord.orange (always body_other) self w = (Return VNone, w)
  /\ DNSRecord.grey (always body_other) self w = (Return VNone, w).
Proof.
  intros self w.
  apply (proj2 (orange_and_grey_never_both_act (always body_other) self w)
           (VBool false)).
  - reflexivity.
  - reflexivity.
Defined.

(** A record built from [r] for a zone built from [z], that is
    proxiable: the one of [orange] and [grey] that changes its state
    sends one PUT to [<endpoint>/zones/<zone id>/dns_records/<record id>]
    with the new value of [proxied], and the other one does nothing. *)
Theorem record_switch_puts_the_new_flag net z r zid rid a b w :
  getitem z "id" = Return (VStr zid) ->
  getitem r "id" = Return (VStr rid) ->
  getitem r "proxiable" = Return a -> truthy a = true ->
  getitem r "proxied" = Return b ->
  ready w ->
  exists zo self,
    Zone.init z = Return zo
    /\ DNSRecord.init r zo = Return self
    /\ let switch := if truthy b then DNSRecord.grey else DNSRecord.orange in
       let other := if truthy b then DNSRecord.orange else DNSRecord.grey in
       sent (Account.outside (snd (switch net self w)))
       = sent (Account.outside w)
         ++ [ {| method := PUT;
                 url := String.append (Account.endpoint (Account.this w))
                          (String.append
                             (String.append (String.append "/zones/" zid)
                                "/dns_records/") rid);
                 params := dicts (Account.outside w) put_p;
                 headers := Account.acc_headers (Account.this w);
                 data := Some (VDict [("proxied",
                                       VBool (negb (truthy b)))]) |} ]
       /\ other net self w = (Return VNone, w).
Proof.
  intros Hz Hrid Ha Hta Hb Hr.
  unfold Zone.init, DNSRecord.init. rewrite Hz, Hrid.
  eexists _, _. split; [reflexivity|]. split; [reflexivity|].
  cbn zeta. set (self := {| DNSRecord.rdata := r |}).
  assert (Ho : forall second,
             DNSRecord.proxiable_and self second = Return (second b)).
  { intros second. unfold DNSRecord.proxiable_and. cbn.
    by rewrite Ha, Hta, Hb. }
  destruct (truthy b) eqn:Htb; cbn [negb]; split.
  - unfold DNSRecord.grey, bind, lift. rewrite Ho, Htb.
    pose proof (put_sends net (DNSRecord.rprefix self)
                  (VDict [("proxied", VBool false)]) w Hr) as Hs.
    destruct (Account.put _ _ _ _ _) as [[x|e] w']; cbn [snd] in *;
      exact Hs.
  - unfold DNSRecord.orange, bind, lift. by rewrite Ho, Htb.
  - unfold DNSRecord.orange, bind, lift. rewrite Ho, Htb. cbn [negb].
    pose proof (put_sends net (DNSRecord.rprefix self)
                  (VDict [("proxied", VBool true)]) w Hr) as Hs.
    destruct (Account.put _ _ _ _ _) as [[x|e] w']; cbn [snd] in *;
      exact Hs.
  - unfold DNSRecord.grey, bind, lift. by rewrite Ho, Htb.
Qed.

Lemma record_switch_puts_the_new_flag_witness :
  let z := VDict [("id", VStr "a1"); ("name", VStr "example.com")] in
  let r := VDict [("id", VStr "r7"); ("proxiable", VBool true);
                  ("proxied", VBool false)] in
  let a := {| Account.acc_headers := [];
              Account.endpoint := "https://api.cloudflare.com/client/v4";
              Account.maxhits := 1200;
              Account.period := 300;
              Account.counter := Some (Counter.mk 300 1200 []);
              Account.zones := None |} in
  let w := {| Account.this := a; Account.outside := env0 |} in
  exists zo self,
    Zone.init z = Return zo
    /\ DNSRecord.init r zo = Return self
    /\ sent (Account.outside
               (snd (DNSRecord.orange (always body_other) self w)))
       = [ {| method := PUT;
              url := "https://api.cloudflare.com/client/v4/zones/a1/dns_records/r7";
              params := ∅;
              headers := [];
              data := Some (VDict [("proxied", VBool true)]) |} ]
       /\ DNSRecord.grey (always body_other) self w = (Return VNone, w).
Proof.
  intros z r a w.
  apply (record_switch_puts_the_new_flag (always body_other) z r "a1" "r7"
           (VBool true) (VBool false) w).
  - reflexivity.
  - reflexivity.
  - reflexivity.
  - reflexivity.
  - reflexivity.
  - exists (Counter.mk 300 1200 []). split; [reflexivity|]. cbn. lia.
Defined.

End ZoneFacts.
